(** * matrix-stats: homeserver resolution, version probing and aggregation

    A shallow embedding of [main.py]: the three-tier resolver
    [homeserver_for_domain], the version fetcher [version_for_homeserver],
    the per-domain prober [version_for_domain] and the aggregation done in
    [main] ([Counter(...).most_common()] followed by the loop that drops
    [None]).

    Conventions.
    - A Python [str] is a Rocq [string], one [ascii] per character (code
      points below 256).
    - A value decoded by [response.json] is a [pyval].
    - [await]ed calls to the network are answered by a [world]: what the
      HTTP session and the DNS resolver reply to each request.
    - Code that can raise runs in the [outcome] monad; [try ... except
      Exception] is [try_except], which lets the exceptions that are not
      subclasses of [Exception] through, as Python does.
    - [print], which debug mode calls, is answered by a [console]: it
      returns, or raises what writing to the standard output raised. *)

From Stdlib Require Import String Ascii List ZArith Lia Bool Arith.
From Stdlib Require Import DecimalString Sorting.Sorted Sorting.Permutation.
From Stdlib Require Import NArith Strings.Byte.
Import ListNotations.
Open Scope string_scope.
Set Warnings "-register-all".

(** ** Python values, exceptions and the error monad *)

Module Py.

(** What [json.loads] can produce.  A float is carried as its literal: the
    program never computes with one.  A dict is the list of its items, in
    insertion order; lookup takes the first item with the key. *)
Inductive pyval : Type :=
| PNone
| PBool (b : bool)
| PInt (z : Z)
| PFloat (literal : string)
| PStr (s : string)
| PList (l : list pyval)
| PDict (d : list (string * pyval)).

(** The exception classes the program can meet.  The last three derive from
    [BaseException] only, so [except Exception] does not catch them. *)
Inductive exn : Type :=
| ClientError          (* aiohttp: connection refused, TLS failure, ... *)
| TimeoutError         (* the 5 s connect or read timeout *)
| JSONDecodeError      (* the body is not JSON *)
| DNSError             (* aiodns: NXDOMAIN, no data, timeout *)
| KeyError
| TypeError
| IndexError
| AttributeError
| OtherException (name : string)
| CancelledError
| KeyboardInterrupt
| SystemExit.

Definition is_Exception (e : exn) : bool :=
  match e with
  | CancelledError | KeyboardInterrupt | SystemExit => false
  | _ => true
  end.

Inductive outcome (A : Type) : Type :=
| Return (a : A)
| Raise (e : exn).
Arguments Return {A} a.
Arguments Raise {A} e.

Definition bind {A B} (m : outcome A) (k : A -> outcome B) : outcome B :=
  match m with
  | Return a => k a
  | Raise e => Raise e
  end.

(** [try: body except Exception: handler] *)
Definition try_except {A} (body : outcome A) (handler : exn -> outcome A)
  : outcome A :=
  match body with
  | Return a => Return a
  | Raise e => if is_Exception e then handler e else Raise e
  end.

(** An outcome the [except Exception] clause deals with: a value, or an
    exception of class [Exception]. *)
Definition catchable {A} (m : outcome A) : Prop :=
  match m with
  | Return _ => True
  | Raise e => is_Exception e = true
  end.

(** The body of a [try] failed with an exception that [except Exception]
    catches. *)
Definition fails {A} (m : outcome A) : Prop :=
  exists e, m = Raise e /\ is_Exception e = true.

(** *** Strings *)

(** [needle in hay] on two [str]. *)
Fixpoint str_in (needle hay : string) : bool :=
  String.prefix needle hay ||
  match hay with
  | EmptyString => false
  | String _ rest => str_in needle rest
  end.

(** [str.isspace] on one character below U+0100: tab, LF, VT, FF, CR, the
    separators FS, GS, RS, US, space, NEL and the no-break space. *)
Definition isspace (c : ascii) : bool :=
  let n := nat_of_ascii c in
  (((9 <=? n) && (n <=? 13)) || ((28 <=? n) && (n <=? 32))
   || (n =? 133) || (n =? 160))%nat.

Definition is_empty (s : string) : bool :=
  match s with
  | EmptyString => true
  | _ => false
  end.

(** [split_from s tok]: the tokens of [s], [tok] being the characters of the
    token under way. *)
Fixpoint split_from (s tok : string) : list string :=
  match s with
  | EmptyString => if is_empty tok then [] else [tok]
  | String c rest =>
      if isspace c
      then (if is_empty tok then split_from rest EmptyString
            else tok :: split_from rest EmptyString)
      else split_from rest (tok ++ String c EmptyString)
  end.

(** [s.split()]: the maximal runs of characters that are not whitespace. *)
Definition str_split (s : string) : list string := split_from s EmptyString.

Definition all_space (s : string) : bool :=
  forallb isspace (list_ascii_of_string s).

(** [str(z)] for an [int]. *)
Definition str_of_int (z : Z) : string := NilZero.string_of_int (Z.to_int z).

(** *** Operations on values *)

Fixpoint dict_get {V} (d : list (string * V)) (key : string) : option V :=
  match d with
  | [] => None
  | (k, v) :: rest => if String.eqb k key then Some v else dict_get rest key
  end.

(** [v[key]] with a [str] key: only a dict takes one; a missing key is a
    [KeyError], anything that is not a dict a [TypeError]. *)
Definition getitem (v : pyval) (key : string) : outcome pyval :=
  match v with
  | PDict d =>
      match dict_get d key with
      | Some x => Return x
      | None => Raise KeyError
      end
  | _ => Raise TypeError
  end.

(** [x == s] for a [str] [s]. *)
Definition eq_str (s : string) (x : pyval) : bool :=
  match x with
  | PStr t => String.eqb s t
  | _ => false
  end.

(** [needle in v] for a [str] needle: substring on a [str], membership on a
    list, key membership on a dict, [TypeError] on the rest. *)
Definition contains (needle : string) (v : pyval) : outcome bool :=
  match v with
  | PStr s => Return (str_in needle s)
  | PList l => Return (existsb (eq_str needle) l)
  | PDict d => Return (existsb (fun kv => String.eqb needle (fst kv)) d)
  | _ => Raise TypeError
  end.

(** [v.split()]: only a [str] has the method. *)
Definition split (v : pyval) : outcome (list string) :=
  match v with
  | PStr s => Return (str_split s)
  | _ => Raise AttributeError
  end.

(** [l[i]] on a list. *)
Definition list_getitem {A} (l : list A) (i : nat) : outcome A :=
  match nth_error l i with
  | Some a => Return a
  | None => Raise IndexError
  end.

End Py.
Import Py.

Declare Scope py_scope.
Delimit Scope py_scope with py.
Notation "x <- m ;; k" := (bind m (fun x => k))
  (at level 61, m at next level, right associativity) : py_scope.
Notation "'try' body 'except' h" := (try_except body h)
  (at level 62, body at level 61, h at level 61) : py_scope.
Open Scope py_scope.

(** ** The network *)

Definition headers_t : Type := list (string * string).

(** One record of a DNS SRV answer. *)
Record srv_record : Type := {
  host : string;
  port : Z;
  priority : Z;
  weight : Z
}.

(** What the outside answers: [http_get url headers] is the outcome of
    [session.get(url, ssl=False, headers=headers)] followed by
    [response.json(content_type=None)], and [dns_query name qtype] the
    outcome of [resolver.query(name, qtype)]. *)
Record world : Type := {
  http_get : string -> option headers_t -> outcome pyval;
  dns_query : string -> string -> outcome (list srv_record)
}.

(** [fetch(session, url, headers=None)] *)
Definition fetch (w : world) (url : string) (headers : option headers_t)
  : outcome pyval :=
  http_get w url headers.

(** What [print(message)] does on the standard output of the process: it
    returns, or it raises, for instance a [UnicodeEncodeError] when the
    encoding of the output lacks a character of the message, or a
    [BrokenPipeError] when the output is a closed pipe. *)
Definition console : Type := string -> outcome unit.

(** [if debug: print(message)] *)
Definition debug_print (out : console) (debug : bool) (message : string)
  : outcome unit :=
  if debug then out message else Return tt.

(** The debug prints come back: debug mode is off, or [print] returns on
    every message. *)
Definition prints_return (out : console) (debug : bool) : Prop :=
  debug = false \/ forall message, out message = Return tt.

(** ** Resolver, fetcher, prober *)

(** The triple [homeserver, headers, method] that the resolver returns.  The
    method is the Python string; [homeserver] is a value because the
    well-known branch can hand back [m.server] as it came. *)
Record ResolutionResult : Type := {
  homeserver : pyval;
  headers : option headers_t;
  method : string
}.

Definition WELL_KNOWN : string := "well-known".
Definition SRV : string := "SRV".
Definition FALLBACK : string := "fallback".

Section Program.

(** [repr] of a float, a list or a dict.  CPython's rendering of these (the
    shortest float literal, the quoting of nested strings) plays no part in
    the program's decisions, so it stays a parameter. *)
Variable py_repr : pyval -> string.

(** [str(e)] of a caught exception, which the failure message of debug mode
    shows.  The text depends on the arguments the exception was raised
    with; it plays no part in the program's decisions. *)
Variable exn_str : exn -> string.

(** [str(v)], which is what an f-string and [str.format] apply to [v]. *)
Definition py_str (v : pyval) : string :=
  match v with
  | PStr s => s
  | PNone => "None"
  | PBool true => "True"
  | PBool false => "False"
  | PInt z => str_of_int z
  | _ => py_repr v
  end.

Definition well_known_url (domain : string) : string :=
  "https://" ++ domain ++ "/.well-known/matrix/server".

Definition srv_name (domain : string) : string :=
  "_matrix._tcp." ++ domain.

Definition version_url (homeserver : pyval) : string :=
  "https://" ++ py_str homeserver ++ "/_matrix/federation/v1/version".

(** The body of the outer [try] of [homeserver_for_domain]. *)
Definition well_known_tier (w : world) (domain : string)
  : outcome ResolutionResult :=
  let headers := None in
  res <- fetch w (well_known_url domain) None ;;
  homeserver_initial <- getitem res "m.server" ;;
  has_colon <- contains ":" homeserver_initial ;;
  let homeserver :=
    if negb has_colon
    then PStr (py_str homeserver_initial ++ ":8448")
    else homeserver_initial in
  Return {| homeserver := homeserver; headers := headers;
            method := WELL_KNOWN |}.

(** The body of the inner [try]. *)
Definition srv_tier (w : world) (domain : string) : outcome ResolutionResult :=
  res <- dns_query w (srv_name domain) "SRV" ;;
  res0 <- list_getitem res 0 ;;
  let homeserver := PStr (host res0 ++ ":" ++ str_of_int (port res0)) in
  let headers := Some [("Host", domain)] in
  Return {| homeserver := homeserver; headers := headers; method := SRV |}.

Definition fallback_tier (domain : string) : ResolutionResult :=
  let headers := None in
  let homeserver := PStr (domain ++ ":8448") in
  {| homeserver := homeserver; headers := headers; method := FALLBACK |}.

Definition homeserver_for_domain (w : world) (domain : string)
  : outcome ResolutionResult :=
  try well_known_tier w domain
  except (fun _ =>
    try srv_tier w domain
    except (fun _ => Return (fallback_tier domain))).

(** [f'{domain} has {homeserver} via {method} with {version_string}'] *)
Definition has_message (domain : string) (homeserver : pyval)
    (method version_string : string) : string :=
  domain ++ " has " ++ py_str homeserver ++ " via " ++ method ++ " with "
  ++ version_string.

(** [f'{domain} failed with {e} using {method}'] *)
Definition failed_message (domain : string) (e : exn) (method : string)
  : string :=
  domain ++ " failed with " ++ exn_str e ++ " using " ++ method.

(** The body of the [try] of [version_for_homeserver]; the print of debug
    mode is its last step before the [return]. *)
Definition version_try (w : world) (out : console) (domain : string)
    (homeserver : pyval) (headers : option headers_t) (method : string)
    (debug : bool) : outcome (option string) :=
  res <- fetch w (version_url homeserver) headers ;;
  versions <- getitem res "server" ;;
  name <- getitem versions "name" ;;
  version <- getitem versions "version" ;;
  tokens <- split version ;;
  token <- list_getitem tokens 0 ;;
  let version_string := py_str name ++ "/" ++ token in
  printed <- debug_print out debug
               (has_message domain homeserver method version_string) ;;
  Return (Some version_string).

(** The [except] clause prints in debug mode, outside any [try]; then the
    function falls off its end and returns [None]. *)
Definition version_for_homeserver (w : world) (out : console)
    (domain : string) (homeserver : pyval) (headers : option headers_t)
    (method : string) (debug : bool) : outcome (option string) :=
  try version_try w out domain homeserver headers method debug
  except (fun e =>
    printed <- debug_print out debug (failed_message domain e method) ;;
    Return None).

Definition version_for_domain (w : world) (out : console) (domain : string)
    (debug : bool) : outcome (option string) :=
  r <- homeserver_for_domain w domain ;;
  version_for_homeserver w out domain (homeserver r) (headers r) (method r)
                         debug.

End Program.

(** ** Aggregation in [main] *)

(** A probe result: a version string, or [None]. *)
Definition key : Type := option string.

Definition key_eqb (a b : key) : bool :=
  match a, b with
  | Some x, Some y => String.eqb x y
  | None, None => true
  | _, _ => false
  end.

Definition is_not_None (k : key) : bool :=
  match k with
  | Some _ => true
  | None => false
  end.

(** A dict from probe results to counts: its items in insertion order. *)
Definition table : Type := list (key * nat).

(** [d.get(k, default)] *)
Fixpoint get (d : table) (k : key) (default : nat) : nat :=
  match d with
  | [] => default
  | (k', v) :: rest => if key_eqb k' k then v else get rest k default
  end.

(** [d[k] = v]: an existing key keeps its place, a new one goes last. *)
Fixpoint dict_set (d : table) (k : key) (v : nat) : table :=
  match d with
  | [] => [(k, v)]
  | (k', v') :: rest =>
      if key_eqb k' k then (k', v) :: rest else (k', v') :: dict_set rest k v
  end.

(** [Counter(iterable)]: [self[elem] = self.get(elem, 0) + 1] for each
    element in turn. *)
Definition Counter (iterable : list key) : table :=
  fold_left (fun self elem => dict_set self elem (get self elem 0 + 1)%nat)
            iterable [].

(** One step of [sorted(items, key=itemgetter(1), reverse=True)] as a stable
    insertion: [x], which came before every element of [l], goes in front of
    the first element whose count does not exceed its own. *)
Fixpoint insert_desc (x : key * nat) (l : table) : table :=
  match l with
  | [] => [x]
  | y :: rest =>
      if (snd y <=? snd x)%nat then x :: y :: rest
      else y :: insert_desc x rest
  end.

(** [sorted(items, key=itemgetter(1), reverse=True)]; Python's sort is
    stable, also with [reverse=True], which fixes its result. *)
Definition sorted_desc (items : table) : table :=
  fold_right insert_desc [] items.

(** [Counter.most_common()] *)
Definition most_common (c : table) : table := sorted_desc c.

(** The loop of [main] that removes the [None] count. *)
Definition drop_None (versions_initial : table) : table :=
  fold_left (fun versions item =>
               let '(version, count) := item in
               if is_not_None version then dict_set versions version count
               else versions)
            versions_initial [].

(** From the gathered results to the dict [versions] of [main]. *)
Definition frequency_table (results : list key) : table :=
  drop_None (most_common (Counter results)).

(** [await asyncio.gather] on the tasks: the results in the order of the tasks;
    an exception of a task is raised to the caller. *)
Fixpoint gather {A} (tasks : list (outcome A)) : outcome (list A) :=
  match tasks with
  | [] => Return []
  | t :: rest => a <- t ;; l <- gather rest ;; Return (a :: l)
  end.

(** [main] from the list of destinations to [versions]; [debug] is
    [args.debug]. *)
Definition main_versions (py_repr : pyval -> string) (exn_str : exn -> string)
    (w : world) (out : console) (destinations : list string) (debug : bool)
  : outcome table :=
  results <- gather (map (fun domain =>
                            version_for_domain py_repr exn_str w out domain
                                               debug)
                         destinations) ;;
  Return (frequency_table results).

(** [total] of [format_report]: the sum of the counts. *)
Definition total (versions : table) : nat :=
  fold_left (fun total item => (total + snd item)%nat) versions 0%nat.

(** The position at which [k] first occurs in [xs] ([length xs] if never). *)
Fixpoint first_index (k : key) (xs : list key) : nat :=
  match xs with
  | [] => 0
  | x :: rest => if key_eqb x k then 0 else S (first_index k rest)
  end.

(** The item holds a version string, not [None]. *)
Definition present (item : key * nat) : bool := is_not_None (fst item).

(** [a] comes before [b] in the report: it has the larger count, or the same
    count and a version that was seen first in [results]. *)
Definition precedes (results : list key) (a b : key * nat) : Prop :=
  snd b < snd a
  \/ (snd a = snd b
      /\ first_index (fst a) results < first_index (fst b) results).

(** Following the spec's words for the data model: the distinct version
    strings in the order in which each was first seen. *)
Fixpoint spec_first_seen_order (results : list key) : list key :=
  match results with
  | [] => []
  | None :: rest => spec_first_seen_order rest
  | Some v :: rest =>
      Some v :: filter (fun k => negb (key_eqb (Some v) k))
                       (spec_first_seen_order rest)
  end.

(** Following the spec's words for the version string: [token] is the first
    whitespace-delimited token of [version], that is, [version] is some
    whitespace, then [token], which is not empty and holds no whitespace,
    then nothing or a whitespace character and the rest. *)
Definition spec_first_token (version token : string) : Prop :=
  exists pre post,
    version = pre ++ token ++ post
    /\ all_space pre = true
    /\ token <> EmptyString
    /\ existsb isspace (list_ascii_of_string token) = false
    /\ (post = EmptyString
        \/ exists c rest, post = String c rest /\ isspace c = true).

(** ** Worlds to run the program on *)

Definition repr_stub : pyval -> string := fun _ => "<repr>".

Definition exn_stub : exn -> string := fun _ => "<error>".

(** A standard output that takes every message. *)
Definition console_ok : console := fun _ => Return tt.

(** A standard output that is a closed pipe. *)
Definition console_broken : console :=
  fun _ => Raise (OtherException "BrokenPipeError").

(** A world that answers every well-known request with [wk], every version
    request with [ver] and every SRV query with [srv]. *)
Definition world_of (wk : outcome pyval) (srv : outcome (list srv_record))
    (ver : outcome pyval) : world :=
  {| http_get := fun url _ => if str_in "/.well-known/" url then wk else ver;
     dns_query := fun _ _ => srv |}.

Definition version_body (name version : pyval) : pyval :=
  PDict [("server", PDict [("name", name); ("version", version)])].

Definition synapse_body : pyval :=
  version_body (PStr "Synapse") (PStr "1.6.1 (abcd,branch)").

(** digitale-gesellschaft.ch: a well-known document without a port. *)
Definition world_well_known : world :=
  world_of (Return (PDict [("m.server", PStr "digitale-gesellschaft.ch")]))
           (Raise DNSError) (Return synapse_body).

(** matrix.org: no well-known document, an SRV record. *)
Definition world_srv : world :=
  world_of (Raise ClientError)
           (Return [{| host := "matrix.org"; port := 8448;
                       priority := 10; weight := 5 |}])
           (Return synapse_body).

(** matrix.tum.de: neither. *)
Definition world_fallback : world :=
  world_of (Raise TimeoutError) (Raise DNSError) (Return synapse_body).

(** A server that reports a blank version. *)
Definition world_blank_version : world :=
  world_of (Raise TimeoutError) (Raise DNSError)
           (Return (version_body (PStr "Synapse") (PStr "  "))).

(** ** More of the resolver's inputs *)

(** Values on which [':' not in v] raises [TypeError]: [None], a bool, a
    number. *)
Definition not_iterable (v : pyval) : bool :=
  match v with
  | PNone | PBool _ | PInt _ | PFloat _ => true
  | _ => false
  end.

(** A well-known document whose [m.server] is a number. *)
Definition world_numeric_m_server : world :=
  world_of (Return (PDict [("m.server", PInt 8448)]))
           (Return [{| host := "matrix.org"; port := 8448;
                       priority := 10; weight := 5 |}])
           (Return synapse_body).

(** A well-known document whose [m.server] is a list. *)
Definition world_list_m_server : world :=
  world_of (Return (PDict [("m.server", PList [PStr "matrix.org"])]))
           (Raise DNSError) (Return synapse_body).

(** No well-known document and an SRV answer without records. *)
Definition world_empty_srv : world :=
  world_of (Raise ClientError) (Return []) (Return synapse_body).

(** The task is cancelled while the well-known request is under way. *)
Definition world_cancelled : world :=
  world_of (Raise CancelledError) (Raise DNSError) (Return synapse_body).

(** No well-known document, and the task is cancelled during the SRV
    query. *)
Definition world_cancelled_srv : world :=
  world_of (Raise ClientError) (Raise CancelledError) (Return synapse_body).

(** How many of the results are [k]. *)
Definition occurrences (k : key) (results : list key) : nat :=
  length (filter (key_eqb k) results).

(** ** The destinations file *)

Definition newline : ascii := "010"%char.

(** The one-character string [\n]. *)
Definition nl : string := String newline EmptyString.

(** [readlines_from text line]: the lines of [text], each with its newline,
    [line] being the characters of the line under way. *)
Fixpoint readlines_from (text line : string) : list string :=
  match text with
  | EmptyString => if is_empty line then [] else [line]
  | String c rest =>
      if Ascii.eqb c newline
      then (line ++ String c EmptyString) :: readlines_from rest EmptyString
      else readlines_from rest (line ++ String c EmptyString)
  end.

(** [f.readlines()] on a file opened in text mode, [text] being what the
    file holds once the line endings are translated to [\n]: a line ends
    with its newline, the last one where the file does not end with one. *)
Definition readlines (text : string) : list string :=
  readlines_from text EmptyString.

(** [s.rstrip('\n')]: [s] without the newlines at its end. *)
Fixpoint rstrip_newline (s : string) : string :=
  match s with
  | EmptyString => EmptyString
  | String c rest =>
      let stripped := rstrip_newline rest in
      if Ascii.eqb c newline && is_empty stripped then EmptyString
      else String c stripped
  end.

(** [file_destinations], from the text of the file. *)
Definition file_destinations (text : string) : list string :=
  fold_left (fun destinations line =>
               (destinations ++ [rstrip_newline line])%list)
            (readlines text) [].

(** The text of a file that holds [lines], each followed by a newline. *)
Fixpoint text_of_lines (lines : list string) : string :=
  match lines with
  | [] => EmptyString
  | line :: rest => line ++ nl ++ text_of_lines rest
  end.

Definition has_newline (s : string) : bool :=
  existsb (fun c => Ascii.eqb c newline) (list_ascii_of_string s).

(** ** The report *)

(** [str(k)] for a key of the table. *)
Definition key_str (k : key) : string :=
  match k with
  | Some s => s
  | None => "None"
  end.

Fixpoint spaces (n : nat) : string :=
  match n with
  | O => EmptyString
  | S m => String " " (spaces m)
  end.

(** [format(count, '<4')]: the decimal digits, then spaces up to a width of
    four. *)
Definition format_left4 (count : nat) : string :=
  let digits := str_of_int (Z.of_nat count) in
  digits ++ spaces (4 - String.length digits).

(** One line of the report: [f'{count:<4} {version}\n']. *)
Definition report_line (item : key * nat) : string :=
  let '(version, count) := item in
  format_left4 count ++ " " ++ key_str version ++ nl.

(** [format_report(versions)], [now] being
    [datetime.datetime.now().isoformat()]. *)
Definition format_report (now : string) (versions : table) : string :=
  let report := EmptyString in
  let total :=
    fold_left (fun total item => (total + snd item)%nat) versions 0%nat in
  let report := report ++ (now ++ nl) in
  let report :=
    report ++ (str_of_int (Z.of_nat total) ++ " homeservers online" ++ nl
               ++ nl) in
  fold_left (fun report item => report ++ report_line item) versions report.

(** ** The metrics message *)

(** [c.lower()] for a character below U+0100: the letters A to Z, and the
    capital letters of Latin-1 (U+00C0 to U+00DE, the multiplication sign
    U+00D7 apart).  Characters from U+0100 on are not in the model; among
    them is U+0130, the one character whose lower case is two characters,
    so nothing is stated here about the length of a lowered string. *)
Definition lower_char (c : ascii) : ascii :=
  let n := nat_of_ascii c in
  if (((65 <=? n) && (n <=? 90))
      || ((192 <=? n) && (n <=? 222) && negb (n =? 215)))%nat
  then ascii_of_nat (n + 32)
  else c.

Fixpoint str_map (f : ascii -> ascii) (s : string) : string :=
  match s with
  | EmptyString => EmptyString
  | String c rest => String (f c) (str_map f rest)
  end.

(** [s.lower()] *)
Definition str_lower (s : string) : string := str_map lower_char s.

(** [s.replace(old, new)] for [old] and [new] of one character each. *)
Definition replace_char (old new : ascii) (s : string) : string :=
  str_map (fun c => if Ascii.eqb c old then new else c) s.

(** [version.lower().replace('.', '-').replace('/', '.')] *)
Definition metric_name (version : string) : string :=
  replace_char "/" "." (replace_char "." "-" (str_lower version)).

Definition count_char (c : ascii) (s : string) : nat :=
  length (filter (Ascii.eqb c) (list_ascii_of_string s)).

(** A tuple [(version, (now, count))] of the message. *)
Definition metric : Type := (string * (Z * nat))%type.

(** The loop of [graphite] over [list(versions.items())[:15]].  A key that
    is [None] has no [lower] method. *)
Definition graphite_tuples (now : Z) (versions : table)
  : outcome (list metric) :=
  fold_left (fun tuples item =>
               let '(version, count) := item in
               done <- tuples ;;
               match version with
               | Some v =>
                   Return (done ++ [(metric_name v, (now, count))])%list
               | None => Raise AttributeError
               end)
            (firstn 15 versions) (Return []).

(** The tuple built for one entry of the table. *)
Definition to_metric (now : Z) (item : key * nat) : metric :=
  (metric_name (key_str (fst item)), (now, snd item)).

(** What the three steps of [metric_name] do to one character. *)
Definition metric_char (c : ascii) : ascii :=
  let c := lower_char c in
  let c := if Ascii.eqb c "." then "-"%char else c in
  if Ascii.eqb c "/" then "."%char else c.

Definition byte_of_N (n : N) : byte :=
  match Byte.of_N (n mod 256) with
  | Some b => b
  | None => x00
  end.

(** [struct.pack('!L', n)]: four bytes, the most significant first;
    [struct.error] when [n] does not fit. *)
Definition struct_pack_L (n : N) : outcome (list byte) :=
  if (n <? 2 ^ 32)%N
  then Return [byte_of_N (n / 2 ^ 24); byte_of_N (n / 2 ^ 16);
               byte_of_N (n / 2 ^ 8); byte_of_N n]
  else Raise (OtherException "struct.error").

(** Reading an unsigned big-endian number, as the receiver of the message
    does with its first four bytes. *)
Definition unpack_big_endian (bytes : list byte) : N :=
  fold_left (fun acc b => (acc * 256 + Byte.to_N b)%N) bytes 0%N.

(** What [graphite] hands to [sendall], in order: the size, then the
    package.  [pickle_dumps tuples] stands for [pickle.dumps(tuples, 2)]. *)
Definition graphite_message (pickle_dumps : list metric -> list byte)
    (now : Z) (versions : table) : outcome (list byte) :=
  tuples <- graphite_tuples now versions ;;
  let package := pickle_dumps tuples in
  size <- struct_pack_L (N.of_nat (length package)) ;;
  Return (size ++ package)%list.

(** ** More inputs to run the program on *)

(** A server that answers the version request with an empty object. *)
Definition world_malformed_body : world :=
  world_of (Raise TimeoutError) (Raise DNSError) (Return (PDict [])).

(** The results of a run over seventeen domains: sixteen different
    versions, the first of them seen twice. *)
Definition seventeen_results : list key :=
  Some "A" :: map (fun n => Some (String (ascii_of_nat (65 + n)) EmptyString))
                  (seq 0 16).

(** A stand-in for [pickle.dumps]: one byte for each tuple. *)
Definition pickle_stub (tuples : list metric) : list byte :=
  map (fun _ => x80) tuples.

(** * Properties *)

(** ** The resolver *)

Section Resolver.

Variable py_repr : pyval -> string.

Example scenario_A :
  homeserver_for_domain py_repr world_srv "matrix.org"
  = Return {| homeserver := PStr "matrix.org:8448";
              headers := Some [("Host", "matrix.org")]; method := "SRV" |}.
Proof. reflexivity. Qed.

Example scenario_B :
  homeserver_for_domain py_repr world_well_known "digitale-gesellschaft.ch"
  = Return {| homeserver := PStr "digitale-gesellschaft.ch:8448";
              headers := None; method := "well-known" |}.
Proof. reflexivity. Qed.

Example scenario_C :
  homeserver_for_domain py_repr world_fallback "matrix.tum.de"
  = Return {| homeserver := PStr "matrix.tum.de:8448";
              headers := None; method := "fallback" |}.
Proof. reflexivity. Qed.

(** A [try] whose body fails with a caught exception runs its handler. *)
Lemma try_except_fails {A} (body : outcome A) handler :
  fails body -> exists e, try_except body handler = handler e.
Proof.
  intros (e & -> & He). exists e. unfold try_except. now rewrite He.
Qed.

(** After the fetch, the well-known tier raises nothing but [KeyError] and
    [TypeError]. *)
Lemma well_known_tier_catchable w domain :
  catchable (fetch w (well_known_url domain) None) ->
  catchable (well_known_tier py_repr w domain).
Proof.
  unfold well_known_tier.
  destruct (fetch w (well_known_url domain) None) as [res|e]; cbn [bind];
    [intros _|trivial].
  destruct res as [| | | | |l|d]; cbn; trivial.
  destruct (dict_get d "m.server") as [[| | | | | |]|]; cbn; trivial.
Qed.

Lemma srv_tier_catchable w domain :
  catchable (dns_query w (srv_name domain) "SRV") ->
  catchable (srv_tier w domain).
Proof.
  unfold srv_tier.
  destruct (dns_query w (srv_name domain) "SRV") as [[|r rest]|e];
    cbn; trivial.
Qed.

(** A failed request, a body that is not a dict and a dict without
    [m.server] all make the well-known tier fail. *)
Lemma well_known_tier_fails w domain :
  (exists e, fetch w (well_known_url domain) None = Raise e
             /\ is_Exception e = true)
  \/ (exists res, fetch w (well_known_url domain) None = Return res
                  /\ forall doc, res = PDict doc ->
                                 dict_get doc "m.server" = None) ->
  fails (well_known_tier py_repr w domain).
Proof.
  unfold well_known_tier.
  intros [(e & -> & He) | (res & -> & Hres)]; cbn [bind].
  - now exists e.
  - destruct res as [| | | | |l|d]; cbn;
      try (exists TypeError; now split).
    rewrite (Hres d eq_refl). exists KeyError. now split.
Qed.

(** No record in the answer makes the SRV tier fail like a failed query. *)
Lemma srv_tier_fails w domain :
  (exists e, dns_query w (srv_name domain) "SRV" = Raise e
             /\ is_Exception e = true)
  \/ dns_query w (srv_name domain) "SRV" = Return [] ->
  fails (srv_tier w domain).
Proof.
  unfold srv_tier.
  intros [(e & -> & He) | ->]; cbn.
  - now exists e.
  - exists IndexError. now split.
Qed.

(** A cancelled task is not a failed request: [CancelledError] derives from
    [BaseException], and [except Exception] lets it through. *)
Example cancellation_propagates :
  homeserver_for_domain py_repr
    (world_of (Raise CancelledError) (Raise DNSError) (Raise ClientError))
    "matrix.org"
  = Raise CancelledError.
Proof. reflexivity. Qed.

(** C1: when the well-known fetch succeeds and its document holds a string
    under [m.server], the resolver returns that string, with [:8448] appended
    when it holds no colon and unchanged otherwise, no header, and the
    method [well-known]. *)
Theorem well_known_resolution w domain doc value :
  fetch w (well_known_url domain) None = Return (PDict doc) ->
  dict_get doc "m.server" = Some (PStr value) ->
  homeserver_for_domain py_repr w domain
  = Return {| homeserver :=
                PStr (if str_in ":" value then value else value ++ ":8448");
              headers := None;
              method := WELL_KNOWN |}.
Proof.
  intros Hfetch Hfield.
  unfold homeserver_for_domain, well_known_tier.
  rewrite Hfetch. cbn [bind getitem]. rewrite Hfield. cbn [bind contains].
  destruct (str_in ":" value); reflexivity.
Qed.

(** C2: when the well-known tier fails and the SRV query for
    [_matrix._tcp.domain] returns at least one record, the resolver returns
    the first record's [host:port], the header [Host: domain] and the
    method [SRV]. *)
Theorem srv_resolution w domain first others :
  fails (well_known_tier py_repr w domain) ->
  dns_query w (srv_name domain) "SRV" = Return (first :: others) ->
  homeserver_for_domain py_repr w domain
  = Return {| homeserver := PStr (host first ++ ":" ++ str_of_int (port first));
              headers := Some [("Host", domain)];
              method := SRV |}.
Proof.
  intros Hwk Hsrv.
  unfold homeserver_for_domain.
  destruct (try_except_fails _
              (fun _ => try_except (srv_tier w domain)
                          (fun _ => Return (fallback_tier domain))) Hwk)
    as [e ->].
  unfold srv_tier. rewrite Hsrv. reflexivity.
Qed.

(** C3: when the well-known tier and the SRV tier both fail, the resolver
    returns [domain:8448], no header, and the method [fallback]. *)
Theorem fallback_resolution w domain :
  fails (well_known_tier py_repr w domain) ->
  fails (srv_tier w domain) ->
  homeserver_for_domain py_repr w domain
  = Return {| homeserver := PStr (domain ++ ":8448");
              headers := None;
              method := FALLBACK |}.
Proof.
  intros Hwk Hsrv.
  unfold homeserver_for_domain.
  destruct (try_except_fails _
              (fun _ => try_except (srv_tier w domain)
                          (fun _ => Return (fallback_tier domain))) Hwk)
    as [e ->].
  destruct (try_except_fails _
              (fun _ => Return (fallback_tier domain)) Hsrv) as [e' ->].
  reflexivity.
Qed.

(** C4: whatever the well-known request and the SRV query give -- a value
    of any shape, or an error of class [Exception] (network error, timeout,
    malformed body, DNS failure) -- the resolver returns a result and raises
    nothing. *)
Theorem resolution_total w domain :
  catchable (fetch w (well_known_url domain) None) ->
  catchable (dns_query w (srv_name domain) "SRV") ->
  exists r, homeserver_for_domain py_repr w domain = Return r.
Proof.
  intros Hwk Hsrv.
  apply well_known_tier_catchable in Hwk.
  apply srv_tier_catchable in Hsrv.
  unfold homeserver_for_domain, try_except.
  destruct (well_known_tier py_repr w domain) as [r|e]; [now exists r|].
  cbn in Hwk. rewrite Hwk.
  destruct (srv_tier w domain) as [r|e']; [now exists r|].
  cbn in Hsrv. rewrite Hsrv. now eexists.
Qed.

(** C5: in every result of the resolver the header is present exactly when
    the method is [SRV]. *)
Theorem header_iff_srv w domain r :
  homeserver_for_domain py_repr w domain = Return r ->
  (headers r <> None <-> method r = SRV).
Proof.
  unfold homeserver_for_domain, try_except.
  assert (Hwk : forall r, well_known_tier py_repr w domain = Return r ->
                 headers r = None /\ method r = WELL_KNOWN).
  { intros r0. unfold well_known_tier.
    destruct (fetch w (well_known_url domain) None) as [res|]; cbn [bind];
      [|discriminate].
    destruct (getitem res "m.server") as [v|]; cbn [bind]; [|discriminate].
    destruct (contains ":" v) as [b|]; cbn [bind]; [|discriminate].
    intros [= <-]. now split. }
  assert (Hsrv : forall r, srv_tier w domain = Return r ->
                 headers r <> None /\ method r = SRV).
  { intros r0. unfold srv_tier.
    destruct (dns_query w (srv_name domain) "SRV") as [res|]; cbn [bind];
      [|discriminate].
    destruct (list_getitem res 0) as [r1|]; cbn [bind]; [|discriminate].
    intros [= <-]. now split. }
  destruct (well_known_tier py_repr w domain) as [r0|e].
  - intros [= <-]. destruct (Hwk r0 eq_refl) as [-> ->].
    split; [congruence | discriminate].
  - destruct (is_Exception e); [|discriminate].
    destruct (srv_tier w domain) as [r1|e'].
    + intros [= <-]. destruct (Hsrv r1 eq_refl) as [Hh ->]. now split.
    + destruct (is_Exception e'); [|discriminate].
      intros [= <-]. cbn. split; [congruence | discriminate].
Qed.

End Resolver.

(** ** [str.split] *)

Lemma append_snoc (acc : string) (c : ascii) (rest : string) :
  (acc ++ String c EmptyString) ++ rest = acc ++ String c rest.
Proof.
  induction acc as [|a acc IH]; cbn; [reflexivity | now rewrite IH].
Qed.

Lemma append_empty_r (s : string) : s ++ EmptyString = s.
Proof.
  induction s as [|a s IH]; cbn; [reflexivity | now rewrite IH].
Qed.

(** Whitespace in front of a string yields no token. *)
Lemma split_from_leading_space (pre s : string) :
  all_space pre = true ->
  split_from (pre ++ s) EmptyString = split_from s EmptyString.
Proof.
  unfold all_space.
  induction pre as [|c pre IH]; cbn; [reflexivity|].
  intros [Hc Hpre]%andb_prop. rewrite Hc. cbn. auto.
Qed.

(** A string of whitespace only, the empty one included, has no token. *)
Lemma str_split_all_space (s : string) :
  all_space s = true -> str_split s = [].
Proof.
  intros Hs. unfold str_split.
  rewrite <- (append_empty_r s).
  now rewrite split_from_leading_space.
Qed.

(** Characters that are not whitespace go to the token under way. *)
Lemma split_from_token (token post acc : string) :
  existsb isspace (list_ascii_of_string token) = false ->
  split_from (token ++ post) acc = split_from post (acc ++ token).
Proof.
  revert acc.
  induction token as [|c token IH]; cbn; intros acc Hns.
  - now rewrite append_empty_r.
  - apply orb_false_elim in Hns as [Hc Hns].
    rewrite Hc, IH by assumption. now rewrite append_snoc.
Qed.

(** The model of [split] agrees with the spec's first token. *)
Lemma str_split_first_token (version token : string) :
  spec_first_token version token ->
  exists others, str_split version = token :: others.
Proof.
  intros (pre & post & -> & Hpre & Hne & Hns & Hpost).
  unfold str_split.
  rewrite split_from_leading_space by assumption.
  rewrite split_from_token by assumption. cbn [append].
  destruct Hpost as [-> | (c & rest & -> & Hc)]; cbn.
  - destruct token; [contradiction | now eexists].
  - rewrite Hc. destruct token; [contradiction | now eexists].
Qed.

Example split_example :
  str_split "1.6.1 (abcd,branch)" = ["1.6.1"; "(abcd,branch)"].
Proof. reflexivity. Qed.

(** ** The version fetcher *)

Section Fetcher.

Variable py_repr : pyval -> string.
Variable exn_str : exn -> string.

Lemma debug_print_returns (out : console) (debug : bool) (message : string) :
  prints_return out debug -> debug_print out debug message = Return tt.
Proof.
  unfold debug_print. intros [->|Hout]; [reflexivity|].
  destruct debug; [apply Hout | reflexivity].
Qed.

Lemma version_try_eq
    w out domain homeserver headers method debug body server name version :
  fetch w (version_url py_repr homeserver) headers = Return body ->
  getitem body "server" = Return server ->
  getitem server "name" = Return name ->
  getitem server "version" = Return (PStr version) ->
  version_try py_repr w out domain homeserver headers method debug
  = match str_split version with
    | token :: _ =>
        printed <- debug_print out debug
                     (has_message py_repr domain homeserver method
                                  (py_str py_repr name ++ "/" ++ token)) ;;
        Return (Some (py_str py_repr name ++ "/" ++ token))
    | [] => Raise IndexError
    end.
Proof.
  intros Hfetch Hserver Hname Hversion.
  unfold version_try.
  rewrite Hfetch; cbn [bind]. rewrite Hserver; cbn [bind].
  rewrite Hname; cbn [bind]. rewrite Hversion; cbn [bind split].
  destruct (str_split version); reflexivity.
Qed.


(** C10, as the code has it: when the body holds [server.name] and a
    [server.version] that is empty or whitespace only, and debug mode is off
    or the print returns, the fetcher returns [None]: the split has no
    token, the [IndexError] is caught, and nothing is raised. *)
Theorem blank_version_absent
    w out domain homeserver headers method debug body server name version :
  fetch w (version_url py_repr homeserver) headers = Return body ->
  getitem body "server" = Return server ->
  getitem server "name" = Return name ->
  getitem server "version" = Return (PStr version) ->
  all_space version = true ->
  prints_return out debug ->
  version_try py_repr w out domain homeserver headers method debug
  = Raise IndexError
  /\ version_for_homeserver py_repr exn_str w out domain homeserver headers
                            method debug
     = Return None.
Proof.
  intros Hfetch Hserver Hname Hversion Hblank Hprint.
  unfold version_for_homeserver.
  rewrite (version_try_eq _ _ _ _ _ _ _ _ _ _ _
             Hfetch Hserver Hname Hversion).
  rewrite (str_split_all_space _ Hblank). split; [reflexivity|].
  cbn [try_except is_Exception]. now rewrite debug_print_returns.
Qed.

End Fetcher.

(** ** Aggregation *)

Close Scope string_scope.
Open Scope list_scope.

Lemma key_eqb_eq (a b : key) : key_eqb a b = true <-> a = b.
Proof.
  destruct a as [x|], b as [y|]; cbn; try rewrite String.eqb_eq;
    split; congruence.
Qed.

Lemma key_eqb_neq (a b : key) : key_eqb a b = false <-> a <> b.
Proof.
  rewrite <- key_eqb_eq. destruct (key_eqb a b); split; congruence.
Qed.

Lemma key_eq_dec (a b : key) : {a = b} + {a <> b}.
Proof. decide equality. apply string_dec. Qed.

Lemma total_from (l : table) (a : nat) :
  fold_left (fun t item => t + snd item) l a = a + total l.
Proof.
  unfold total. revert a.
  induction l as [|x l IH]; intros a; cbn; [lia|].
  rewrite IH, (IH (snd x)). lia.
Qed.

Lemma total_cons (x : key * nat) (l : table) :
  total (x :: l) = snd x + total l.
Proof. unfold total at 1. cbn. now rewrite total_from. Qed.

(** *** The dict operations *)

Lemma dict_set_old (d : table) (k : key) (v : nat) :
  In k (map fst d) -> map fst (dict_set d k v) = map fst d.
Proof.
  induction d as [|[k' v'] d IH]; cbn; [contradiction|].
  intros Hin. destruct (key_eqb k' k) eqn:E; cbn; [reflexivity|].
  apply key_eqb_neq in E. destruct Hin as [->|Hin]; [contradiction|].
  now rewrite IH.
Qed.

Lemma dict_set_new (d : table) (k : key) (v : nat) :
  ~ In k (map fst d) -> dict_set d k v = d ++ [(k, v)].
Proof.
  induction d as [|[k' v'] d IH]; cbn; [reflexivity|].
  intros Hnotin. destruct (key_eqb k' k) eqn:E.
  - apply key_eqb_eq in E. tauto.
  - rewrite IH; tauto.
Qed.

(** Counting one more element adds one to the counts of version strings
    exactly when the element is one. *)
Lemma count_step (d : table) (k : key) :
  total (filter present (dict_set d k (get d k 0 + 1)))
  = total (filter present d) + (if is_not_None k then 1 else 0).
Proof.
  assert (Hpair : forall k v, present (k, v) = is_not_None k)
    by reflexivity.
  induction d as [|[k' v'] d IH]; cbn [dict_set get].
  - cbn [filter]. rewrite Hpair. destruct (is_not_None k); reflexivity.
  - destruct (key_eqb k' k) eqn:E; cbn [filter]; rewrite !Hpair.
    + apply key_eqb_eq in E. subst k'.
      destruct (is_not_None k); [|lia].
      rewrite !total_cons. cbn [snd]. lia.
    + destruct (is_not_None k'); [|apply IH].
      rewrite !total_cons, IH. lia.
Qed.

Lemma Counter_from_total (xs : list key) (d : table) :
  total (filter present
           (fold_left (fun self elem => dict_set self elem (get self elem 0 + 1))
                      xs d))
  = total (filter present d) + length (filter is_not_None xs).
Proof.
  revert d.
  induction xs as [|x xs IH]; intros d; cbn [fold_left filter length]; [lia|].
  rewrite IH, count_step. destruct (is_not_None x); cbn [length]; lia.
Qed.

Lemma Counter_snoc (xs : list key) (x : key) :
  Counter (xs ++ [x])
  = dict_set (Counter xs) x (get (Counter xs) x 0 + 1).
Proof. unfold Counter. now rewrite fold_left_app. Qed.

(** *** First occurrences *)

Lemma first_index_lt (k : key) (xs : list key) :
  In k xs -> first_index k xs < length xs.
Proof.
  induction xs as [|x xs IH]; cbn; [contradiction|].
  intros Hin. destruct (key_eqb x k) eqn:E; [lia|].
  apply key_eqb_neq in E. destruct Hin as [->|Hin]; [contradiction|].
  specialize (IH Hin). lia.
Qed.

Lemma first_index_app_old (k : key) (xs ys : list key) :
  In k xs -> first_index k (xs ++ ys) = first_index k xs.
Proof.
  induction xs as [|x xs IH]; cbn; [contradiction|].
  intros Hin. destruct (key_eqb x k) eqn:E; [reflexivity|].
  apply key_eqb_neq in E. destruct Hin as [->|Hin]; [contradiction|].
  now rewrite IH.
Qed.

Lemma first_index_app_new (k : key) (xs : list key) :
  ~ In k xs -> first_index k (xs ++ [k]) = length xs.
Proof.
  induction xs as [|x xs IH]; cbn.
  - intros _. now rewrite (proj2 (key_eqb_eq k k) eq_refl).
  - intros Hnotin. destruct (key_eqb x k) eqn:E.
    + apply key_eqb_eq in E. tauto.
    + rewrite IH; tauto.
Qed.

Lemma StronglySorted_snoc {A} (R : A -> A -> Prop) (l : list A) (x : A) :
  StronglySorted R l -> Forall (fun a => R a x) l ->
  StronglySorted R (l ++ [x]).
Proof.
  induction 1 as [|a l Hl IH Ha]; cbn; intros Hx.
  - constructor; constructor.
  - inversion Hx as [|? ? Hax Hlx]; subst.
    constructor; [now apply IH|].
    apply Forall_app. split; [assumption | now constructor].
Qed.

Lemma StronglySorted_weaken {A} (R R' : A -> A -> Prop) (l : list A) :
  (forall a b, In a l -> In b l -> R a b -> R' a b) ->
  StronglySorted R l -> StronglySorted R' l.
Proof.
  intros Himp Hl. induction Hl as [|a l Hl IH Ha]; constructor.
  - apply IH. intros; apply Himp; cbn; auto.
  - rewrite Forall_forall in *. intros b Hb.
    apply Himp; cbn; auto.
Qed.

Lemma StronglySorted_filter {A} (R : A -> A -> Prop) (f : A -> bool)
    (l : list A) :
  StronglySorted R l -> StronglySorted R (filter f l).
Proof.
  induction 1 as [|a l Hl IH Ha]; cbn; [constructor|].
  destruct (f a); [|assumption].
  constructor; [assumption|].
  rewrite Forall_forall in *. intros b [Hb _]%filter_In. auto.
Qed.

(** The keys of a [Counter] are the elements counted, each once, in the
    order in which they first occur. *)
Lemma Counter_keys (xs : list key) :
  (forall k, In k (map fst (Counter xs)) <-> In k xs)
  /\ NoDup (map fst (Counter xs))
  /\ StronglySorted (fun k1 k2 => first_index k1 xs < first_index k2 xs)
                    (map fst (Counter xs)).
Proof.
  induction xs as [|x xs (Hin & Hnodup & Hsorted)] using rev_ind.
  - cbn. repeat split; try tauto; constructor.
  - rewrite Counter_snoc.
    set (v := get (Counter xs) x 0 + 1). clearbody v.
    assert (Hold : forall k1 k2, In k1 (map fst (Counter xs)) ->
                     In k2 (map fst (Counter xs)) ->
                     first_index k1 xs < first_index k2 xs ->
                     first_index k1 (xs ++ [x]) < first_index k2 (xs ++ [x])).
    { intros k1 k2 H1%Hin H2%Hin.
      now rewrite !first_index_app_old by assumption. }
    destruct (in_dec key_eq_dec
                     x xs) as [Hx|Hx].
    + rewrite dict_set_old by now apply Hin.
      repeat split; [| |assumption|].
      * intros Hk%Hin. apply in_or_app. now left.
      * intros [Hk|[<-|[]]]%in_app_or; now apply Hin.
      * eapply StronglySorted_weaken; [|exact Hsorted]. exact Hold.
    + assert (Hx' : ~ In x (map fst (Counter xs))) by now rewrite Hin.
      rewrite dict_set_new by assumption.
      rewrite map_app. cbn [map fst].
      repeat split.
      * intros [Hk%Hin|Hk]%in_app_or; apply in_or_app; auto.
      * intros [Hk|Hk]%in_app_or; apply in_or_app; [left; now apply Hin|auto].
      * apply NoDup_app; [assumption | repeat constructor; intros [] |].
        intros k Hk [<-|[]]. contradiction.
      * apply StronglySorted_snoc.
        -- eapply StronglySorted_weaken; [|exact Hsorted]. exact Hold.
        -- rewrite Forall_forall. intros k Hk%Hin.
           rewrite first_index_app_old, first_index_app_new by assumption.
           now apply first_index_lt.
Qed.

(** *** The sort *)

Lemma insert_desc_perm (x : key * nat) (l : table) :
  Permutation (insert_desc x l) (x :: l).
Proof.
  induction l as [|y l IH]; cbn; [reflexivity|].
  destruct (snd y <=? snd x); [reflexivity|].
  rewrite IH. apply perm_swap.
Qed.

Lemma sorted_desc_perm (l : table) : Permutation (sorted_desc l) l.
Proof.
  induction l as [|x l IH]; cbn; [reflexivity|].
  rewrite insert_desc_perm. now constructor.
Qed.

(** Inserting an item that came before all those already sorted keeps the
    order of the report. *)
Lemma insert_desc_sorted (results : list key) (x : key * nat) (l : table) :
  StronglySorted (precedes results) l ->
  Forall (fun y => first_index (fst x) results
                   < first_index (fst y) results) l ->
  StronglySorted (precedes results) (insert_desc x l).
Proof.
  induction 1 as [|y l Hl IH Hy]; cbn; intros Hx.
  - constructor; constructor.
  - inversion Hx as [|? ? Hxy Hxl]; subst.
    destruct (snd y <=? snd x) eqn:E.
    + apply Nat.leb_le in E.
      constructor; [now constructor|].
      constructor; [unfold precedes; lia|].
      rewrite Forall_forall in *. intros z Hz.
      specialize (Hy z Hz). specialize (Hxl z Hz).
      unfold precedes in *. lia.
    + apply Nat.leb_gt in E.
      constructor; [now apply IH|].
      eapply Permutation_Forall;
        [symmetry; apply insert_desc_perm|].
      constructor; [unfold precedes; lia | assumption].
Qed.

(** The sort is stable: items that were in order of first occurrence come
    out by descending count, and in order of first occurrence where the
    counts are equal. *)
Lemma sorted_desc_sorted (results : list key) (l : table) :
  StronglySorted (fun a b => first_index (fst a) results
                             < first_index (fst b) results) l ->
  StronglySorted (precedes results) (sorted_desc l).
Proof.
  induction 1 as [|x l Hl IH Hx]; cbn; [constructor|].
  apply insert_desc_sorted; [assumption|].
  eapply Permutation_Forall; [symmetry; apply sorted_desc_perm | exact Hx].
Qed.

Lemma StronglySorted_map {A B} (R : B -> B -> Prop) (f : A -> B)
    (l : list A) :
  StronglySorted R (map f l) ->
  StronglySorted (fun a b => R (f a) (f b)) l.
Proof.
  induction l as [|a l IH]; cbn; intros H; [constructor|].
  inversion H as [|? ? Hl Ha]; subst.
  constructor; [now apply IH|].
  rewrite Forall_forall in *. intros b Hb. apply Ha. now apply in_map.
Qed.

(** *** The loop that drops [None] *)

Lemma drop_None_from (l acc : table) :
  NoDup (map fst acc ++ map fst l) ->
  fold_left (fun versions item =>
               let '(version, count) := item in
               if is_not_None version then dict_set versions version count
               else versions) l acc
  = acc ++ filter present l.
Proof.
  revert acc.
  induction l as [|[k v] l IH]; intros acc Hnodup; cbn [fold_left filter].
  - now rewrite app_nil_r.
  - change (present (k, v)) with (is_not_None k).
    cbn [map fst] in Hnodup.
    destruct (is_not_None k).
    + rewrite dict_set_new.
      * rewrite IH; [now rewrite <- app_assoc|].
        rewrite map_app, <- app_assoc. exact Hnodup.
      * apply NoDup_remove_2 in Hnodup.
        intros Hin. apply Hnodup, in_or_app. now left.
    + apply IH. now apply NoDup_remove_1 in Hnodup.
Qed.

(** With the keys of a [Counter] distinct, the loop keeps the items whose
    key is not [None], in the order of [most_common]. *)
Lemma frequency_table_eq (results : list key) :
  frequency_table results
  = filter present (sorted_desc (Counter results)).
Proof.
  unfold frequency_table, drop_None, most_common.
  rewrite drop_None_from; [reflexivity|].
  cbn [map app].
  eapply Permutation_NoDup;
    [apply Permutation_map; symmetry; apply sorted_desc_perm|].
  apply Counter_keys.
Qed.

Lemma total_filter_perm (l l' : table) :
  Permutation l l' ->
  total (filter present l) = total (filter present l').
Proof.
  induction 1 as [|x l l' _ IH|x y l|l l' l'' _ IH1 _ IH2]; cbn [filter].
  - reflexivity.
  - destruct (present x); [now rewrite !total_cons, IH | assumption].
  - destruct (present x), (present y); rewrite ?total_cons; lia.
  - congruence.
Qed.

(** The counts of the table add up to the number of results that are
    version strings. *)
Lemma frequency_table_total (results : list key) :
  total (frequency_table results) = length (filter is_not_None results).
Proof.
  rewrite frequency_table_eq.
  rewrite (total_filter_perm _ _ (sorted_desc_perm _)).
  unfold Counter. now rewrite Counter_from_total.
Qed.

Lemma filter_length_all {A} (f : A -> bool) (l : list A) :
  length (filter f l) = length l <-> Forall (fun a => f a = true) l.
Proof.
  induction l as [|a l IH]; cbn; [split; [constructor | reflexivity]|].
  pose proof (filter_length_le f l) as Hle.
  destruct (f a) eqn:E; cbn; split.
  - intros [= H]. constructor; [assumption | now apply IH].
  - intros H. inversion H; subst. f_equal. now apply IH.
  - lia.
  - intros H. inversion H; congruence.
Qed.

Lemma frequency_table_order (results : list key) :
  StronglySorted (precedes results) (frequency_table results).
Proof.
  rewrite frequency_table_eq.
  apply StronglySorted_filter, sorted_desc_sorted.
  apply (StronglySorted_map
           (fun k1 k2 => first_index k1 results < first_index k2 results) fst).
  apply Counter_keys.
Qed.

Lemma gather_length {A} (tasks : list (outcome A)) (results : list A) :
  gather tasks = Return results -> length results = length tasks.
Proof.
  revert results.
  induction tasks as [|[a|e] tasks IH]; cbn; intros results.
  - now intros [= <-].
  - destruct (gather tasks) as [l|e]; cbn; [|discriminate].
    intros [= <-]. cbn. f_equal. now apply IH.
  - discriminate.
Qed.

(** What [main] aggregates is one result per destination. *)
Lemma main_versions_results
    py_repr exn_str w out destinations debug versions :
  main_versions py_repr exn_str w out destinations debug = Return versions ->
  exists results,
    length results = length destinations
    /\ versions = frequency_table results.
Proof.
  unfold main_versions.
  destruct (gather (map (fun domain =>
                             version_for_domain py_repr exn_str w out domain
                                                debug)
                          destinations))
    as [results|e] eqn:E; cbn; [|discriminate].
  intros [= <-]. exists results. split; [|reflexivity].
  apply gather_length in E. now rewrite length_map in E.
Qed.

Example scenario_D :
  frequency_table [Some "Synapse/1.6.1"; Some "Dendrite/0.5.0";
                   Some "Synapse/1.6.1"; None; Some "Synapse/1.6.1"]%string
  = [(Some "Synapse/1.6.1", 3); (Some "Dendrite/0.5.0", 1)]%string.
Proof. reflexivity. Qed.

(** C7: the table has no entry under [None]; its counts add up to at most
    the number of results (one per domain), and to exactly that number when
    and only when no result is [None]. *)
Theorem frequency_table_counts (results : list key) :
  ~ In None (map fst (frequency_table results))
  /\ total (frequency_table results) <= length results
  /\ (total (frequency_table results) = length results
      <-> Forall (fun r => r <> None) results).
Proof.
  repeat split.
  - rewrite frequency_table_eq.
    intros ([k v] & Hk & [_ Hp]%filter_In)%in_map_iff.
    cbn in Hk. subst k. discriminate.
  - rewrite frequency_table_total. apply filter_length_le.
  - rewrite frequency_table_total, filter_length_all.
    apply Forall_impl. intros [s|]; cbn; congruence.
  - rewrite frequency_table_total, filter_length_all.
    apply Forall_impl. intros [s|]; cbn; congruence.
Qed.

(** C8: the entries of the table come by descending count. *)
Theorem frequency_table_descending (results : list key) :
  StronglySorted (fun a b => snd b <= snd a) (frequency_table results).
Proof.
  eapply StronglySorted_weaken; [|apply (frequency_table_order results)].
  unfold precedes. intros a b _ _ H. lia.
Qed.

(** C9, as the code has it: the table iterates by descending count, and
    versions with the same count come in the order in which each was first
    seen among the results. *)
Theorem frequency_table_iteration_order (results : list key) :
  StronglySorted
    (fun a b =>
       snd b < snd a
       \/ (snd a = snd b
           /\ first_index (fst a) results < first_index (fst b) results))
    (frequency_table results).
Proof. exact (frequency_table_order results). Qed.

(** C9 as the spec words it fails: with results [A, B, B] the first-seen
    order is [A, B], and the table iterates [B, A]. *)
Lemma first_seen_order_counterexample :
  let results := [Some "A"; Some "B"; Some "B"]%string in
  spec_first_seen_order results = [Some "A"; Some "B"]%string
  /\ frequency_table results = [(Some "B", 2); (Some "A", 1)]%string
  /\ map fst (frequency_table results) <> spec_first_seen_order results.
Proof.
  cbn zeta. repeat split. discriminate.
Qed.

(** ** The theorems at work on the example worlds *)

Open Scope string_scope.

Lemma well_known_resolution_witness :
  homeserver_for_domain repr_stub world_well_known "digitale-gesellschaft.ch"
  = Return {| homeserver := PStr "digitale-gesellschaft.ch:8448";
              headers := None; method := WELL_KNOWN |}.
Proof.
  exact (well_known_resolution repr_stub world_well_known
           "digitale-gesellschaft.ch"
           [("m.server", PStr "digitale-gesellschaft.ch")]
           "digitale-gesellschaft.ch" eq_refl eq_refl).
Defined.

Lemma srv_resolution_witness :
  fails (well_known_tier repr_stub world_srv "matrix.org")
  /\ homeserver_for_domain repr_stub world_srv "matrix.org"
     = Return {| homeserver := PStr "matrix.org:8448";
                 headers := Some [("Host", "matrix.org")]; method := SRV |}.
Proof.
  assert (Hwk : fails (well_known_tier repr_stub world_srv "matrix.org"))
    by (exists ClientError; split; reflexivity).
  split; [exact Hwk|].
  exact (srv_resolution repr_stub world_srv "matrix.org"
           {| host := "matrix.org"; port := 8448;
              priority := 10; weight := 5 |} [] Hwk eq_refl).
Defined.

Lemma fallback_resolution_witness :
  fails (well_known_tier repr_stub world_fallback "matrix.tum.de")
  /\ fails (srv_tier world_fallback "matrix.tum.de")
  /\ homeserver_for_domain repr_stub world_fallback "matrix.tum.de"
     = Return {| homeserver := PStr "matrix.tum.de:8448";
                 headers := None; method := FALLBACK |}.
Proof.
  assert (Hwk : fails (well_known_tier repr_stub world_fallback
                         "matrix.tum.de"))
    by (exists TimeoutError; split; reflexivity).
  assert (Hsrv : fails (srv_tier world_fallback "matrix.tum.de"))
    by (exists DNSError; split; reflexivity).
  split; [exact Hwk | split; [exact Hsrv|]].
  exact (fallback_resolution repr_stub world_fallback "matrix.tum.de"
           Hwk Hsrv).
Defined.

Lemma resolution_total_witness :
  exists r,
    homeserver_for_domain repr_stub world_fallback "matrix.tum.de" = Return r.
Proof.
  apply (resolution_total repr_stub world_fallback "matrix.tum.de");
    reflexivity.
Defined.

Lemma header_iff_srv_witness :
  headers {| homeserver := PStr "matrix.org:8448";
             headers := Some [("Host", "matrix.org")]; method := SRV |}
  <> None
  <-> SRV = SRV.
Proof.
  exact (header_iff_srv repr_stub world_srv "matrix.org" _ eq_refl).
Defined.


Lemma blank_version_absent_witness :
  version_try repr_stub world_blank_version console_broken "matrix.tum.de"
    (PStr "matrix.tum.de:8448") None FALLBACK false
  = Raise IndexError
  /\ version_for_homeserver repr_stub exn_stub world_blank_version
       console_broken "matrix.tum.de" (PStr "matrix.tum.de:8448") None
       FALLBACK false
     = Return None.
Proof.
  exact (blank_version_absent repr_stub exn_stub world_blank_version
           console_broken "matrix.tum.de" (PStr "matrix.tum.de:8448") None
           FALLBACK false
           (version_body (PStr "Synapse") (PStr "  "))
           (PDict [("name", PStr "Synapse"); ("version", PStr "  ")])
           (PStr "Synapse") "  " eq_refl eq_refl eq_refl eq_refl eq_refl
           (or_introl eq_refl)).
Defined.

(** ** More on the resolver *)

Section ResolverEdges.

Variable py_repr : pyval -> string.

Lemma prefix_append (n rest : string) : String.prefix n (n ++ rest) = true.
Proof.
  induction n as [|c n IH]; cbn; [now destruct rest|].
  destruct (ascii_dec c c); [assumption | contradiction].
Qed.

Lemma str_in_append (n before rest : string) :
  str_in n (before ++ n ++ rest) = true.
Proof.
  induction before as [|c before IH]; cbn [append].
  - pose proof (prefix_append n rest) as Hp.
    destruct (n ++ rest); cbn [str_in]; now rewrite Hp.
  - cbn [str_in]. rewrite IH. apply orb_true_r.
Qed.

(** X1: a well-known document whose [m.server] is null, a bool or a number
    is not used: the [TypeError] of the colon test is caught, and the
    resolver answers as the SRV and fallback tiers do, never with the method
    [well-known]. *)
Theorem malformed_m_server_falls_through w domain doc v :
  fetch w (well_known_url domain) None = Return (PDict doc) ->
  dict_get doc "m.server" = Some v ->
  not_iterable v = true ->
  homeserver_for_domain py_repr w domain
  = try_except (srv_tier w domain) (fun _ => Return (fallback_tier domain))
  /\ forall r, homeserver_for_domain py_repr w domain = Return r ->
               method r <> WELL_KNOWN.
Proof.
  intros Hfetch Hfield Hv.
  assert (Heq : homeserver_for_domain py_repr w domain
                = try_except (srv_tier w domain)
                    (fun _ => Return (fallback_tier domain))).
  { unfold homeserver_for_domain, well_known_tier.
    rewrite Hfetch. cbn [bind getitem]. rewrite Hfield. cbn [bind].
    destruct v; try discriminate; reflexivity. }
  split; [exact Heq|].
  intros r. rewrite Heq. unfold try_except, srv_tier.
  destruct (dns_query w (srv_name domain) "SRV") as [[|first others]|e];
    cbn.
  - intros [= <-]. discriminate.
  - intros [= <-]. discriminate.
  - destruct (is_Exception e); [|discriminate].
    intros [= <-]. discriminate.
Qed.

(** X2: a list or a dict under [m.server] is taken by the well-known tier:
    the method is [well-known] and there is no header; the authority is the
    value itself when [':'] is one of its elements or keys, and its [str]
    followed by [:8448] otherwise. *)
Theorem container_m_server_accepted w domain doc v :
  fetch w (well_known_url domain) None = Return (PDict doc) ->
  dict_get doc "m.server" = Some v ->
  (exists l, v = PList l) \/ (exists d, v = PDict d) ->
  exists has_colon,
    contains ":" v = Return has_colon
    /\ homeserver_for_domain py_repr w domain
       = Return {| homeserver := if has_colon then v
                                 else PStr (py_repr v ++ ":8448");
                   headers := None; method := WELL_KNOWN |}.
Proof.
  intros Hfetch Hfield Hv.
  unfold homeserver_for_domain, well_known_tier.
  rewrite Hfetch. cbn [bind getitem]. rewrite Hfield. cbn [bind].
  destruct Hv as [[l ->]|[d ->]]; cbn [contains bind].
  - exists (existsb (eq_str ":") l). split; [reflexivity|].
    destruct (existsb (eq_str ":") l); reflexivity.
  - exists (existsb (fun kv => String.eqb ":" (fst kv)) d).
    split; [reflexivity|].
    destruct (existsb (fun kv => String.eqb ":" (fst kv)) d); reflexivity.
Qed.

(** X3: an SRV answer without records counts as a failed query: with the
    well-known tier failing too, the resolver falls back to
    [domain:8448]. *)
Theorem empty_srv_answer_falls_back w domain :
  fails (well_known_tier py_repr w domain) ->
  dns_query w (srv_name domain) "SRV" = Return [] ->
  homeserver_for_domain py_repr w domain = Return (fallback_tier domain).
Proof.
  intros (e & Hwk & He) Hsrv.
  unfold homeserver_for_domain, try_except, srv_tier.
  rewrite Hwk, He, Hsrv. reflexivity.
Qed.

(** X4: an authority that is a string always holds a colon, whichever tier
    produced it. *)
Theorem authority_has_colon w domain r s :
  homeserver_for_domain py_repr w domain = Return r ->
  homeserver r = PStr s ->
  str_in ":" s = true.
Proof.
  unfold homeserver_for_domain, try_except.
  destruct (well_known_tier py_repr w domain) as [r0|e] eqn:Hwk.
  - intros [= <-]. revert Hwk. unfold well_known_tier.
    destruct (fetch w (well_known_url domain) None) as [res|]; cbn [bind];
      [|discriminate].
    destruct (getitem res "m.server") as [v|]; cbn [bind]; [|discriminate].
    destruct (contains ":" v) as [[|]|] eqn:Hc; cbn [bind negb];
      [| |discriminate]; intros [= <-]; cbn [homeserver].
    + intros ->. cbn in Hc. now injection Hc.
    + intros [= <-]. apply (str_in_append ":" _ "8448").
  - destruct (is_Exception e); [|discriminate].
    destruct (srv_tier w domain) as [r1|e'] eqn:Hsrv.
    + intros [= <-]. revert Hsrv. unfold srv_tier.
      destruct (dns_query w (srv_name domain) "SRV") as [res|]; cbn [bind];
        [|discriminate].
      destruct (list_getitem res 0) as [first|]; cbn [bind];
        [|discriminate].
      intros [= <-]. cbn [homeserver]. intros [= <-].
      apply (str_in_append ":" (host first) (str_of_int (port first))).
    + destruct (is_Exception e'); [|discriminate].
      intros [= <-]. cbn. intros [= <-].
      apply (str_in_append ":" _ "8448").
Qed.

(** X5: the method tells which tier answered: [well-known] only when the
    well-known tier returned the result, [SRV] only when the well-known
    tier failed and the SRV tier returned it, [fallback] only when both
    failed. *)
Theorem method_reports_tier w domain r :
  homeserver_for_domain py_repr w domain = Return r ->
  (method r = WELL_KNOWN /\ well_known_tier py_repr w domain = Return r)
  \/ (method r = SRV /\ fails (well_known_tier py_repr w domain)
       /\ srv_tier w domain = Return r)
  \/ (method r = FALLBACK /\ fails (well_known_tier py_repr w domain)
       /\ fails (srv_tier w domain) /\ r = fallback_tier domain).
Proof.
  unfold homeserver_for_domain, try_except.
  destruct (well_known_tier py_repr w domain) as [r0|e] eqn:Hwk.
  - intros [= <-]. left. split; [|reflexivity].
    revert Hwk. unfold well_known_tier.
    destruct (fetch w (well_known_url domain) None) as [res|]; cbn [bind];
      [|discriminate].
    destruct (getitem res "m.server") as [v|]; cbn [bind]; [|discriminate].
    destruct (contains ":" v) as [b|]; cbn [bind]; [|discriminate].
    now intros [= <-].
  - destruct (is_Exception e) eqn:He; [|discriminate].
    assert (Hfail : fails (@Raise ResolutionResult e)) by now exists e.
    destruct (srv_tier w domain) as [r1|e'] eqn:Hsrv.
    + intros [= <-]. right. left. repeat split; try assumption.
      revert Hsrv. unfold srv_tier.
      destruct (dns_query w (srv_name domain) "SRV") as [res|]; cbn [bind];
        [|discriminate].
      destruct (list_getitem res 0) as [first|]; cbn [bind];
        [|discriminate].
      now intros [= <-].
    + destruct (is_Exception e') eqn:He'; [|discriminate].
      intros [= <-]. right. right. repeat split; try assumption.
      now exists e'.
Qed.

(** X6: an exception that is not of class [Exception] (a cancelled task, a
    keyboard interrupt) is not swallowed: raised by the well-known request,
    or by the SRV query after the well-known tier failed, it leaves the
    resolver as it is. *)
Theorem uncaught_exception_propagates w domain e :
  is_Exception e = false ->
  (fetch w (well_known_url domain) None = Raise e ->
   homeserver_for_domain py_repr w domain = Raise e)
  /\ (fails (well_known_tier py_repr w domain) ->
      dns_query w (srv_name domain) "SRV" = Raise e ->
      homeserver_for_domain py_repr w domain = Raise e).
Proof.
  intros He. split.
  - intros Hfetch. unfold homeserver_for_domain, well_known_tier, try_except.
    rewrite Hfetch. cbn [bind]. now rewrite He.
  - intros (e0 & Hwk & He0) Hsrv.
    unfold homeserver_for_domain, try_except, srv_tier.
    rewrite Hwk, He0, Hsrv. cbn [bind]. now rewrite He.
Qed.

End ResolverEdges.

(** ** More on the version fetcher and the prober *)

Lemma list_ascii_of_string_append (a b : string) :
  list_ascii_of_string (a ++ b)
  = (list_ascii_of_string a ++ list_ascii_of_string b)%list.
Proof.
  induction a as [|c a IH]; cbn; [reflexivity | now rewrite IH].
Qed.

Lemma string_append_assoc (a b c : string) : (a ++ b) ++ c = a ++ b ++ c.
Proof.
  induction a as [|x a IH]; cbn; [reflexivity | now rewrite IH].
Qed.

(** Every token of [split] is non-empty and free of whitespace. *)
Lemma split_from_tokens (s tok : string) :
  existsb isspace (list_ascii_of_string tok) = false ->
  Forall (fun t => t <> EmptyString
                   /\ existsb isspace (list_ascii_of_string t) = false)
         (split_from s tok).
Proof.
  revert tok.
  induction s as [|c s IH]; intros tok Htok; cbn [split_from].
  - destruct tok; cbn [is_empty]; constructor; [|constructor].
    split; [discriminate | assumption].
  - destruct (isspace c) eqn:Hc.
    + destruct tok; cbn [is_empty].
      * now apply IH.
      * constructor; [split; [discriminate | assumption]|].
        now apply IH.
    + apply IH. rewrite list_ascii_of_string_append, existsb_app, Htok.
      cbn. now rewrite Hc.
Qed.

Section FetcherEdges.

Variable py_repr : pyval -> string.
Variable exn_str : exn -> string.

(** What the body of the [try] raises, once the request has answered and
    the print has returned, is a [TypeError], a [KeyError], an
    [AttributeError] or an [IndexError]. *)
Lemma version_try_catchable w out domain homeserver headers method debug :
  catchable (fetch w (version_url py_repr homeserver) headers) ->
  prints_return out debug ->
  catchable (version_try py_repr w out domain homeserver headers method
                         debug).
Proof.
  intros Hfetch Hprint. revert Hfetch. unfold version_try.
  destruct (fetch w (version_url py_repr homeserver) headers) as [res|e];
    cbn [bind]; [intros _|trivial].
  destruct (getitem res "server") as [versions|e] eqn:E1; cbn [bind].
  2:{ destruct res; cbn in E1; try (injection E1 as <-; reflexivity).
      destruct (dict_get d "server"); [discriminate|].
      injection E1 as <-. reflexivity. }
  destruct (getitem versions "name") as [name|e] eqn:E2; cbn [bind].
  2:{ destruct versions; cbn in E2; try (injection E2 as <-; reflexivity).
      destruct (dict_get d "name"); [discriminate|].
      injection E2 as <-. reflexivity. }
  destruct (getitem versions "version") as [version|e] eqn:E3; cbn [bind].
  2:{ destruct versions; cbn in E3; try (injection E3 as <-; reflexivity).
      destruct (dict_get d "version"); [discriminate|].
      injection E3 as <-. reflexivity. }
  destruct version; cbn [split bind catchable is_Exception]; trivial.
  destruct (str_split s); cbn [list_getitem nth_error bind catchable
                               is_Exception]; trivial.
  now rewrite (debug_print_returns out debug _ Hprint).
Qed.

Lemma version_try_inv w out domain homeserver headers method debug v :
  version_try py_repr w out domain homeserver headers method debug
  = Return (Some v) ->
  exists body server name version token others,
    fetch w (version_url py_repr homeserver) headers = Return body
    /\ getitem body "server" = Return server
    /\ getitem server "name" = Return name
    /\ getitem server "version" = Return (PStr version)
    /\ str_split version = token :: others
    /\ v = py_str py_repr name ++ "/" ++ token.
Proof.
  unfold version_try.
  destruct (fetch w (version_url py_repr homeserver) headers) as [body|]
    eqn:E0; cbn [bind]; [|discriminate].
  destruct (getitem body "server") as [server|] eqn:E1; cbn [bind];
    [|discriminate].
  destruct (getitem server "name") as [name|] eqn:E2; cbn [bind];
    [|discriminate].
  destruct (getitem server "version") as [version|] eqn:E3; cbn [bind];
    [|discriminate].
  destruct version as [| | | |version| |]; cbn [split bind]; try discriminate.
  destruct (str_split version) as [|token others] eqn:E4;
    cbn [list_getitem nth_error bind]; [discriminate|].
  destruct (debug_print out debug _); cbn [bind]; [|discriminate].
  intros [= <-]. exists body, server, name, version, token, others.
  repeat split; assumption.
Qed.

Lemma version_for_homeserver_inv
    w out domain homeserver headers method debug v :
  version_for_homeserver py_repr exn_str w out domain homeserver headers
                         method debug
  = Return (Some v) ->
  version_try py_repr w out domain homeserver headers method debug
  = Return (Some v).
Proof.
  unfold version_for_homeserver, try_except.
  destruct (version_try py_repr w out domain homeserver headers method debug)
    as [r|e]; [trivial|].
  destruct (is_Exception e); [|discriminate].
  destruct (debug_print out debug _); discriminate.
Qed.

(** X7: a version string is returned only for a body that holds [server],
    in it [name] and a string [version] with at least one token; the string
    is then the name, a slash and the first token. *)
Theorem version_string_sound
    w out domain homeserver headers method debug v :
  version_for_homeserver py_repr exn_str w out domain homeserver headers
                         method debug
  = Return (Some v) ->
  exists body server name version token others,
    fetch w (version_url py_repr homeserver) headers = Return body
    /\ getitem body "server" = Return server
    /\ getitem server "name" = Return name
    /\ getitem server "version" = Return (PStr version)
    /\ str_split version = token :: others
    /\ v = py_str py_repr name ++ "/" ++ token.
Proof.
  intros H. now apply version_for_homeserver_inv, version_try_inv in H.
Qed.

Lemma version_for_homeserver_returns
    w out domain homeserver headers method debug :
  catchable (fetch w (version_url py_repr homeserver) headers) ->
  prints_return out debug ->
  exists r,
    version_for_homeserver py_repr exn_str w out domain homeserver headers
                           method debug
    = Return r.
Proof.
  intros Hfetch Hprint.
  pose proof (version_try_catchable w out domain homeserver headers method
                debug Hfetch Hprint) as H.
  unfold version_for_homeserver, try_except.
  destruct (version_try py_repr w out domain homeserver headers method debug)
    as [r|e]; [now exists r|].
  cbn in H. rewrite H, (debug_print_returns out debug _ Hprint).
  now eexists.
Qed.

(** X8: with debug mode off or a print that returns, the fetcher raises
    nothing when the request answers or fails with an error of class
    [Exception]: it returns a version string or [None]. *)
Theorem fetcher_never_raises w out domain homeserver headers method debug :
  catchable (fetch w (version_url py_repr homeserver) headers) ->
  prints_return out debug ->
  exists r,
    version_for_homeserver py_repr exn_str w out domain homeserver headers
                           method debug
    = Return r.
Proof. apply version_for_homeserver_returns. Qed.

(** X9: the part of a version string after the name and the slash is never
    empty and holds no whitespace. *)
Theorem version_token_shape w out domain homeserver headers method debug v :
  version_for_homeserver py_repr exn_str w out domain homeserver headers
                         method debug
  = Return (Some v) ->
  exists name token,
    v = name ++ "/" ++ token
    /\ token <> EmptyString
    /\ existsb isspace (list_ascii_of_string token) = false.
Proof.
  intros H. apply version_for_homeserver_inv, version_try_inv in H.
  destruct H as (body & server & name & version & token & others
                 & _ & _ & _ & _ & Hsplit & ->).
  exists (py_str py_repr name), token. split; [reflexivity|].
  pose proof (split_from_tokens version EmptyString eq_refl) as Htokens.
  fold (str_split version) in Htokens. rewrite Hsplit in Htokens.
  now inversion Htokens.
Qed.

(** X10: with debug mode off or a print that returns, an answer that is not
    a body with [server], [name] and a string [version] holding a token
    gives [None]. *)
Theorem malformed_body_absent
    w out domain homeserver headers method debug body :
  fetch w (version_url py_repr homeserver) headers = Return body ->
  (forall server name version token others,
      getitem body "server" = Return server ->
      getitem server "name" = Return name ->
      getitem server "version" = Return (PStr version) ->
      str_split version = token :: others -> False) ->
  prints_return out debug ->
  version_for_homeserver py_repr exn_str w out domain homeserver headers
                         method debug
  = Return None.
Proof.
  intros Hfetch Hbad Hprint.
  assert (Hc : catchable (version_try py_repr w out domain homeserver
                                      headers method debug)).
  { apply version_try_catchable; [now rewrite Hfetch | assumption]. }
  unfold version_for_homeserver, try_except.
  destruct (version_try py_repr w out domain homeserver headers method debug)
    as [[v|]|e] eqn:E.
  - apply version_try_inv in E.
    destruct E as (body' & server & name & version & token & others
                   & Hf & H1 & H2 & H3 & H4 & _).
    rewrite Hfetch in Hf. injection Hf as <-.
    now destruct (Hbad server name version token others).
  - reflexivity.
  - cbn in Hc. now rewrite Hc, (debug_print_returns out debug _ Hprint).
Qed.

Lemma version_for_domain_returns w out domain debug :
  (forall url headers, catchable (http_get w url headers)) ->
  (forall name qtype, catchable (dns_query w name qtype)) ->
  prints_return out debug ->
  exists r, version_for_domain py_repr exn_str w out domain debug = Return r.
Proof.
  intros Hhttp Hdns Hprint.
  unfold version_for_domain.
  assert (Hres : exists r, homeserver_for_domain py_repr w domain = Return r).
  { pose proof (well_known_tier_catchable py_repr w domain
                  (Hhttp _ _)) as Hwk.
    pose proof (srv_tier_catchable w domain (Hdns _ _)) as Hsrv.
    unfold homeserver_for_domain, try_except.
    destruct (well_known_tier py_repr w domain) as [r|e]; [now exists r|].
    cbn in Hwk. rewrite Hwk.
    destruct (srv_tier w domain) as [r|e']; [now exists r|].
    cbn in Hsrv. rewrite Hsrv. now eexists. }
  destruct Hres as [r ->]. cbn [bind].
  apply version_for_homeserver_returns; [apply Hhttp | assumption].
Qed.

(** X11: with debug mode off or a print that returns, the prober raises
    nothing in a world whose requests and queries answer or fail with
    errors of class [Exception]: every failure of a domain ends as a
    version string or [None]. *)
Theorem prober_never_raises w out domain debug :
  (forall url headers, catchable (http_get w url headers)) ->
  (forall name qtype, catchable (dns_query w name qtype)) ->
  prints_return out debug ->
  exists r, version_for_domain py_repr exn_str w out domain debug = Return r.
Proof. apply version_for_domain_returns. Qed.

(** X12: for a domain resolved through SRV the version request goes to the
    host and port of the first record, with the header [Host: domain]; when
    that request answers with a well-formed body, and debug mode is off or
    the print returns, the probe gives the version string. *)
Theorem srv_probe
    w out domain debug first others body server name version token :
  fails (well_known_tier py_repr w domain) ->
  dns_query w (srv_name domain) "SRV" = Return (first :: others) ->
  http_get w ("https://" ++ host first ++ ":" ++ str_of_int (port first)
              ++ "/_matrix/federation/v1/version")
           (Some [("Host", domain)])
  = Return body ->
  getitem body "server" = Return server ->
  getitem server "name" = Return name ->
  getitem server "version" = Return (PStr version) ->
  spec_first_token version token ->
  prints_return out debug ->
  version_for_domain py_repr exn_str w out domain debug
  = Return (Some (py_str py_repr name ++ "/" ++ token)).
Proof.
  intros (e & Hwk & He) Hsrv Hget Hserver Hname Hversion Htoken Hprint.
  unfold version_for_domain, homeserver_for_domain, try_except, srv_tier.
  rewrite Hwk, He, Hsrv. cbn [bind list_getitem nth_error homeserver headers
                              method].
  unfold version_for_homeserver.
  rewrite (version_try_eq py_repr w out domain _ _ SRV debug
             body server name version).
  - destruct (str_split_first_token _ _ Htoken) as [rest ->].
    now rewrite (debug_print_returns out debug _ Hprint).
  - unfold fetch, version_url. cbn [py_str].
    rewrite !string_append_assoc. exact Hget.
  - exact Hserver.
  - exact Hname.
  - exact Hversion.
Qed.

(** X26: in debug mode the print of the [except] clause is outside any
    [try]: when the body of the [try] fails and that print raises, the
    fetcher raises what the print raised instead of returning [None]. *)
Theorem failed_print_propagates
    w out domain homeserver headers method e e' :
  version_try py_repr w out domain homeserver headers method true = Raise e ->
  is_Exception e = true ->
  out (failed_message exn_str domain e method) = Raise e' ->
  version_for_homeserver py_repr exn_str w out domain homeserver headers
                         method true
  = Raise e'.
Proof.
  intros Htry He Hout.
  unfold version_for_homeserver, try_except, debug_print.
  now rewrite Htry, He, Hout.
Qed.

(** X27: in debug mode the print that announces a version is inside the
    [try]: when it raises an error of class [Exception] the version is
    lost, and the fetcher goes on as for a failed fetch, printing the
    failure and returning [None]. *)
Theorem failed_announcement_loses_version
    w out domain homeserver headers method body server name version token e :
  fetch w (version_url py_repr homeserver) headers = Return body ->
  getitem body "server" = Return server ->
  getitem server "name" = Return name ->
  getitem server "version" = Return (PStr version) ->
  spec_first_token version token ->
  out (has_message py_repr domain homeserver method
                   (py_str py_repr name ++ "/" ++ token))
  = Raise e ->
  is_Exception e = true ->
  version_for_homeserver py_repr exn_str w out domain homeserver headers
                         method true
  = (printed <- out (failed_message exn_str domain e method) ;; Return None).
Proof.
  intros Hfetch Hserver Hname Hversion Htoken Hout He.
  unfold version_for_homeserver.
  rewrite (version_try_eq py_repr w out domain homeserver headers method true
             body server name version Hfetch Hserver Hname Hversion).
  destruct (str_split_first_token _ _ Htoken) as [rest ->].
  unfold debug_print, try_except. rewrite Hout. cbn [bind]. now rewrite He.
Qed.

End FetcherEdges.

(** ** More on the aggregation *)

Section AggregationCounts.

Local Close Scope string_scope.

Lemma get_dict_set_same (d : table) (k : key) (v dflt : nat) :
  get (dict_set d k v) k dflt = v.
Proof.
  induction d as [|[k' v'] d IH]; cbn.
  - now rewrite (proj2 (key_eqb_eq k k) eq_refl).
  - destruct (key_eqb k' k) eqn:E; cbn; rewrite E; [reflexivity | exact IH].
Qed.

Lemma get_dict_set_other (d : table) (k k' : key) (v dflt : nat) :
  k <> k' -> get (dict_set d k v) k' dflt = get d k' dflt.
Proof.
  intros Hne.
  induction d as [|[k0 v0] d IH]; cbn.
  - now rewrite (proj2 (key_eqb_neq k k') Hne).
  - destruct (key_eqb k0 k) eqn:E; cbn.
    + apply key_eqb_eq in E. subst k0.
      now rewrite (proj2 (key_eqb_neq k k') Hne).
    + destruct (key_eqb k0 k'); [reflexivity | exact IH].
Qed.

Lemma key_eqb_sym (a b : key) : key_eqb a b = key_eqb b a.
Proof.
  destruct (key_eqb b a) eqn:E.
  - apply key_eqb_eq in E. subst. now apply key_eqb_eq.
  - apply key_eqb_neq in E. apply key_eqb_neq. congruence.
Qed.

(** Each element counted adds one under its own key and leaves the other
    keys alone. *)
Lemma Counter_from_get (xs : list key) (d : table) (k : key) :
  get (fold_left (fun self elem => dict_set self elem (get self elem 0 + 1))
                 xs d) k 0
  = get d k 0 + occurrences k xs.
Proof.
  unfold occurrences. revert d.
  induction xs as [|x xs IH]; intros d; cbn [fold_left filter length];
    [lia|].
  rewrite IH. destruct (key_eqb k x) eqn:E.
  - apply key_eqb_eq in E. subst x.
    rewrite get_dict_set_same. cbn [length]. lia.
  - apply key_eqb_neq in E.
    rewrite get_dict_set_other by congruence. lia.
Qed.

Lemma get_In (l : table) (k : key) (v dflt : nat) :
  NoDup (map fst l) -> In (k, v) l -> get l k dflt = v.
Proof.
  induction l as [|[k' v'] l IH]; cbn; [contradiction|].
  intros Hnodup [[= -> ->]|Hin].
  - now rewrite (proj2 (key_eqb_eq k k) eq_refl).
  - inversion Hnodup as [|? ? Hk' Hl]; subst.
    destruct (key_eqb k' k) eqn:E; [|now apply IH].
    apply key_eqb_eq in E. subst k'.
    exfalso. apply Hk'. now apply (in_map fst) in Hin.
Qed.

Lemma get_not_In (l : table) (k : key) (dflt : nat) :
  ~ In k (map fst l) -> get l k dflt = dflt.
Proof.
  induction l as [|[k' v'] l IH]; cbn; [reflexivity|].
  intros Hnotin. destruct (key_eqb k' k) eqn:E.
  - apply key_eqb_eq in E. tauto.
  - apply IH. tauto.
Qed.

Lemma get_perm (l l' : table) (k : key) (dflt : nat) :
  NoDup (map fst l) -> Permutation l l' -> get l k dflt = get l' k dflt.
Proof.
  intros Hnodup Hperm.
  assert (Hnodup' : NoDup (map fst l'))
    by (eapply Permutation_NoDup; [apply Permutation_map, Hperm|assumption]).
  destruct (in_dec key_eq_dec k (map fst l)) as [Hin|Hnotin].
  - apply in_map_iff in Hin. destruct Hin as ([k0 v] & Hk & Hin).
    cbn in Hk. subst k0.
    rewrite (get_In l k v) by assumption.
    symmetry. apply get_In; [assumption|].
    eapply Permutation_in; eassumption.
  - rewrite get_not_In by assumption.
    symmetry. apply get_not_In. intros Hin. apply Hnotin.
    eapply Permutation_in; [apply Permutation_map; symmetry; exact Hperm|].
    exact Hin.
Qed.

Lemma get_filter_present (l : table) (k : key) (dflt : nat) :
  is_not_None k = true -> get (filter present l) k dflt = get l k dflt.
Proof.
  intros Hk.
  induction l as [|[k' v'] l IH]; cbn [filter get]; [reflexivity|].
  change (present (k', v')) with (is_not_None k').
  destruct (is_not_None k') eqn:Ek'; cbn [get]; rewrite IH; [reflexivity|].
  destruct (key_eqb k' k) eqn:E; [|reflexivity].
  apply key_eqb_eq in E. congruence.
Qed.

Lemma keys_filter_present (l : table) (k : key) :
  In k (map fst (filter present l))
  <-> is_not_None k = true /\ In k (map fst l).
Proof.
  rewrite !in_map_iff. split.
  - intros ([k' v] & Hk & [Hin Hp]%filter_In). cbn in Hk. subst k'.
    split; [exact Hp|]. now exists (k, v).
  - intros (Hk & [k' v] & Hk' & Hin). cbn in Hk'. subst k'.
    exists (k, v). split; [reflexivity|]. apply filter_In. now split.
Qed.

Lemma NoDup_keys_filter (f : key * nat -> bool) (l : table) :
  NoDup (map fst l) -> NoDup (map fst (filter f l)).
Proof.
  induction l as [|x l IH]; cbn; [trivial|].
  intros Hnodup. inversion Hnodup as [|? ? Hx Hl]; subst.
  destruct (f x); cbn; [|now apply IH].
  constructor; [|now apply IH].
  intros ([k v] & Hk & [Hin _]%filter_In)%in_map_iff.
  apply Hx. rewrite <- Hk. now apply (in_map fst) in Hin.
Qed.

Lemma sorted_Counter_NoDup (results : list key) :
  NoDup (map fst (sorted_desc (Counter results))).
Proof.
  eapply Permutation_NoDup;
    [apply Permutation_map; symmetry; apply sorted_desc_perm|].
  apply Counter_keys.
Qed.

Lemma frequency_table_NoDup (results : list key) :
  NoDup (map fst (frequency_table results)).
Proof.
  rewrite frequency_table_eq. apply NoDup_keys_filter, sorted_Counter_NoDup.
Qed.

Lemma frequency_table_keys (results : list key) (k : key) :
  In k (map fst (frequency_table results))
  <-> is_not_None k = true /\ In k results.
Proof.
  rewrite frequency_table_eq, keys_filter_present.
  destruct (Counter_keys results) as (Hin & _ & _). rewrite <- Hin.
  split; intros [Hk H]; (split; [exact Hk|]).
  - eapply Permutation_in;
      [apply Permutation_map, sorted_desc_perm | exact H].
  - eapply Permutation_in;
      [apply Permutation_map; symmetry; apply sorted_desc_perm | exact H].
Qed.

Lemma frequency_table_get (results : list key) (k : key) :
  is_not_None k = true ->
  get (frequency_table results) k 0 = occurrences k results.
Proof.
  intros Hk.
  rewrite frequency_table_eq, get_filter_present by assumption.
  rewrite <- (get_perm _ _ k 0 (proj1 (proj2 (Counter_keys results)))
                (Permutation_sym (sorted_desc_perm (Counter results)))).
  unfold Counter. now rewrite Counter_from_get.
Qed.

Lemma occurrences_pos (k : key) (results : list key) :
  In k results -> 1 <= occurrences k results.
Proof.
  unfold occurrences.
  induction results as [|x results IH]; cbn; [contradiction|].
  intros [->|Hin].
  - rewrite (proj2 (key_eqb_eq k k) eq_refl). cbn. lia.
  - destruct (key_eqb k x); cbn; [lia | now apply IH].
Qed.

Lemma occurrences_perm (k : key) (l l' : list key) :
  Permutation l l' -> occurrences k l = occurrences k l'.
Proof.
  unfold occurrences.
  induction 1 as [|x l l' _ IH|x y l|l l' l'' _ IH1 _ IH2]; cbn.
  - reflexivity.
  - destruct (key_eqb k x); cbn; now rewrite IH.
  - destruct (key_eqb k x), (key_eqb k y); reflexivity.
  - congruence.
Qed.

(** X13: the count stored under a version string is the number of results
    equal to it (zero when the version is in no result), and nothing is
    stored under [None]. *)
Theorem frequency_table_lookup (results : list key) (version : string) :
  get (frequency_table results) (Some version) 0
  = occurrences (Some version) results
  /\ get (frequency_table results) None 0 = 0.
Proof.
  split.
  - now apply frequency_table_get.
  - apply get_not_In. rewrite frequency_table_keys. intros [[=] _].
Qed.

(** X14: the keys of the table are distinct, and they are exactly the
    version strings that occur among the results. *)
Theorem frequency_table_key_set (results : list key) :
  NoDup (map fst (frequency_table results))
  /\ forall k, In k (map fst (frequency_table results))
               <-> k <> None /\ In k results.
Proof.
  split; [apply frequency_table_NoDup|].
  intros k. rewrite frequency_table_keys.
  destruct k as [v|]; cbn; split; intros [H1 H2]; split;
    congruence || assumption.
Qed.

(** X15: every entry of the table carries the number of results equal to
    its key, which is at least one: no version is listed with a count of
    zero. *)
Theorem frequency_table_entries (results : list key) (k : key) (count : nat) :
  In (k, count) (frequency_table results) ->
  count = occurrences k results /\ 1 <= count.
Proof.
  intros Hin.
  assert (Hk : In k (map fst (frequency_table results)))
    by now apply (in_map fst) in Hin.
  apply frequency_table_keys in Hk. destruct Hk as [Hk Hres].
  assert (Hc : count = occurrences k results).
  { rewrite <- frequency_table_get by assumption.
    symmetry. apply get_In; [apply frequency_table_NoDup | exact Hin]. }
  split; [exact Hc|]. rewrite Hc. now apply occurrences_pos.
Qed.

(** X16: the counts do not depend on the order of the results: listing the
    domains in another order gives a table with the same count under every
    key. *)
Theorem frequency_table_order_independent (results results' : list key) :
  Permutation results results' ->
  forall k, get (frequency_table results) k 0
            = get (frequency_table results') k 0.
Proof.
  intros Hperm [v|].
  - rewrite !frequency_table_get by reflexivity.
    now apply occurrences_perm.
  - rewrite !get_not_In; [reflexivity| |];
      rewrite frequency_table_keys; intros [[=] _].
Qed.

(** X17: when every probe failed the table is empty: the [None] count is
    removed and nothing else was counted. *)
Theorem frequency_table_all_failed (results : list key) :
  Forall (fun r => r = None) results ->
  frequency_table results = [].
Proof.
  intros Hall.
  destruct (frequency_table results) as [|[k c] rest] eqn:E; [reflexivity|].
  assert (Hk : In k (map fst (frequency_table results)))
    by (rewrite E; now left).
  apply frequency_table_keys in Hk. destruct Hk as [Hk Hin].
  rewrite Forall_forall in Hall. rewrite (Hall k Hin) in Hk. discriminate.
Qed.

Lemma gather_returns {A} (tasks : list (outcome A)) :
  Forall (fun t => exists a, t = Return a) tasks ->
  exists results, gather tasks = Return results.
Proof.
  induction 1 as [|t tasks [a ->] _ [results IH]]; cbn.
  - now eexists.
  - rewrite IH. cbn. now eexists.
Qed.

(** X18: in a world whose requests and queries answer or fail with errors
    of class [Exception], and with debug mode off or a print that returns,
    [main] gets its table whatever the destinations are: no failure of a
    domain stops the run, the failed domains are missing from the counts,
    and the counts add up to at most the number of destinations. *)
Theorem main_versions_returns py_repr exn_str w out
    (destinations : list string) debug :
  (forall url headers, catchable (http_get w url headers)) ->
  (forall name qtype, catchable (dns_query w name qtype)) ->
  prints_return out debug ->
  exists versions,
    main_versions py_repr exn_str w out destinations debug = Return versions
    /\ ~ In None (map fst versions)
    /\ total versions <= length destinations.
Proof.
  intros Hhttp Hdns Hprint.
  destruct (gather_returns
              (map (fun domain =>
                      version_for_domain py_repr exn_str w out domain debug)
                   destinations))
    as [results Hresults].
  { rewrite Forall_forall. intros t (domain & <- & _)%in_map_iff.
    now apply version_for_domain_returns. }
  unfold main_versions. rewrite Hresults. cbn [bind].
  eexists. split; [reflexivity|].
  apply gather_length in Hresults. rewrite length_map in Hresults.
  split.
  - rewrite frequency_table_keys. intros [[=] _].
  - rewrite frequency_table_total, <- Hresults. apply filter_length_le.
Qed.

End AggregationCounts.

(** ** The destinations file *)

Section Destinations.

Lemma fold_left_snoc_map {A B} (f : A -> B) (l : list A) (acc : list B) :
  fold_left (fun done x => (done ++ [f x])%list) l acc
  = (acc ++ map f l)%list.
Proof.
  revert acc. induction l as [|x l IH]; intros acc; cbn.
  - now rewrite app_nil_r.
  - now rewrite IH, <- app_assoc.
Qed.

Lemma file_destinations_map (text : string) :
  file_destinations text = map rstrip_newline (readlines text).
Proof. unfold file_destinations. now rewrite fold_left_snoc_map. Qed.

Lemma has_newline_snoc (line : string) (c : ascii) :
  has_newline line = false -> Ascii.eqb c newline = false ->
  has_newline (line ++ String c EmptyString) = false.
Proof.
  unfold has_newline. intros Hline Hc.
  rewrite list_ascii_of_string_append, existsb_app, Hline. cbn.
  now rewrite Hc.
Qed.

Lemma rstrip_newline_clean (line : string) :
  has_newline line = false -> rstrip_newline line = line.
Proof.
  unfold has_newline.
  induction line as [|c line IH]; cbn; [reflexivity|].
  intros [Hc Hline]%orb_false_elim. now rewrite Hc, IH.
Qed.

Lemma rstrip_newline_line (line : string) :
  has_newline line = false -> rstrip_newline (line ++ nl) = line.
Proof.
  unfold has_newline.
  induction line as [|c line IH]; cbn; [reflexivity|].
  intros [Hc Hline]%orb_false_elim. now rewrite Hc, IH.
Qed.

Lemma readlines_from_line (line rest acc : string) :
  has_newline line = false ->
  readlines_from (line ++ nl ++ rest) acc
  = (acc ++ line ++ nl) :: readlines_from rest EmptyString.
Proof.
  unfold has_newline. revert acc.
  induction line as [|c line IH]; intros acc; cbn.
  - reflexivity.
  - intros [Hc Hline]%orb_false_elim. rewrite Hc, IH by assumption.
    now rewrite append_snoc.
Qed.

Lemma readlines_from_last (last acc : string) :
  has_newline last = false ->
  readlines_from last acc
  = if is_empty (acc ++ last) then [] else [acc ++ last].
Proof.
  unfold has_newline. revert acc.
  induction last as [|c last IH]; intros acc; cbn.
  - now rewrite append_empty_r.
  - intros [Hc Hlast]%orb_false_elim. rewrite Hc, IH by assumption.
    now rewrite append_snoc.
Qed.

(** X19: a file that holds lines, each ended by a newline, and maybe a last
    line without one, gives back exactly these lines, in order and without
    their newlines; an empty line is kept as an empty destination. *)
Theorem file_destinations_lines (lines : list string) (last : string) :
  Forall (fun line => has_newline line = false) lines ->
  has_newline last = false ->
  file_destinations (text_of_lines lines ++ last)
  = (lines ++ if is_empty last then [] else [last])%list.
Proof.
  intros Hlines Hlast. rewrite file_destinations_map. unfold readlines.
  induction Hlines as [|line lines Hline _ IH]; cbn [text_of_lines app].
  - cbn [append]. rewrite readlines_from_last by assumption. cbn [append].
    destruct last; cbn; [reflexivity|].
    f_equal. apply (rstrip_newline_clean (String a last)), Hlast.
  - rewrite !string_append_assoc, readlines_from_line by assumption.
    cbn [map append]. rewrite IH. f_equal.
    now apply rstrip_newline_line.
Qed.

Lemma readlines_from_stripped (text acc : string) :
  has_newline acc = false ->
  Forall (fun line => has_newline (rstrip_newline line) = false)
         (readlines_from text acc).
Proof.
  revert acc.
  induction text as [|c text IH]; intros acc Hacc; cbn [readlines_from].
  - destruct (is_empty acc); constructor; [|constructor].
    now rewrite rstrip_newline_clean.
  - destruct (Ascii.eqb c newline) eqn:Hc.
    + apply Ascii.eqb_eq in Hc. subst c. constructor.
      * fold nl. now rewrite rstrip_newline_line.
      * now apply IH.
    + apply IH. now apply has_newline_snoc.
Qed.

(** X20: whatever the file holds, no destination read from it contains a
    newline. *)
Theorem file_destinations_no_newline (text : string) :
  Forall (fun destination => has_newline destination = false)
         (file_destinations text).
Proof.
  rewrite file_destinations_map. apply Forall_map.
  now apply readlines_from_stripped.
Qed.

End Destinations.

(** ** The report *)

Lemma fold_left_append_lines {A} (f : A -> string) (l : list A)
    (report : string) :
  fold_left (fun report item => report ++ f item) l report
  = report ++ fold_right append EmptyString (map f l).
Proof.
  revert report. induction l as [|x l IH]; intros report; cbn.
  - now rewrite append_empty_r.
  - now rewrite IH, string_append_assoc.
Qed.

(** X21: the report of a run is the timestamp line, then the number of
    results that are version strings followed by [homeservers online], an
    empty line, and one line for each entry of the table, in the order of
    the table. *)
Theorem format_report_of_results (now : string) (results : list key) :
  format_report now (frequency_table results)
  = now ++ nl
    ++ str_of_int (Z.of_nat (length (filter is_not_None results)))
    ++ " homeservers online" ++ nl ++ nl
    ++ fold_right append EmptyString
         (map report_line (frequency_table results)).
Proof.
  unfold format_report.
  change (fold_left (fun total item => (total + snd item)%nat)
            (frequency_table results) 0%nat)
    with (total (frequency_table results)).
  rewrite frequency_table_total, fold_left_append_lines.
  cbn [append]. now rewrite !string_append_assoc.
Qed.

(** ** The metrics message *)

Section Graphite.

Local Close Scope string_scope.

Lemma graphite_tuples_from (now : Z) (items : table) (done : list metric) :
  Forall (fun item => present item = true) items ->
  fold_left (fun tuples item =>
               let '(version, count) := item in
               done <- tuples ;;
               match version with
               | Some v => Return (done ++ [(metric_name v, (now, count))])
               | None => Raise AttributeError
               end)
            items (Return done)
  = Return (done ++ map (to_metric now) items).
Proof.
  intros Hitems. revert done.
  induction Hitems as [|[[v|] count] items Hitem _ IH]; intros done;
    cbn [fold_left map].
  - now rewrite app_nil_r.
  - cbn [bind]. rewrite IH. now rewrite <- app_assoc.
  - discriminate.
Qed.

Lemma frequency_table_present (results : list key) :
  Forall (fun item => present item = true) (frequency_table results).
Proof.
  rewrite frequency_table_eq, Forall_forall.
  now intros item [_ H]%filter_In.
Qed.

Lemma Forall_firstn {A} (P : A -> Prop) (n : nat) (l : list A) :
  Forall P l -> Forall P (firstn n l).
Proof.
  intros H. revert n. induction H as [|x l Hx _ IH]; intros [|n]; cbn;
    constructor; auto.
Qed.

Lemma StronglySorted_app_inv {A} (R : A -> A -> Prop) (l1 l2 : list A)
    (a b : A) :
  StronglySorted R (l1 ++ l2) -> In a l1 -> In b l2 -> R a b.
Proof.
  induction l1 as [|x l1 IH]; cbn; [contradiction|].
  intros Hsorted [->|Ha] Hb; inversion Hsorted as [|? ? Hl Hx]; subst.
  - rewrite Forall_forall in Hx. apply Hx, in_or_app. now right.
  - now apply IH.
Qed.

(** X22: for the table of a run the loop of [graphite] raises nothing and
    builds one tuple for each of the first fifteen entries, in their order:
    the metric name of the version, the time and the count.  A longer table
    is cut to fifteen tuples. *)
Theorem graphite_tuples_of_results (now : Z) (results : list key) :
  graphite_tuples now (frequency_table results)
  = Return (map (to_metric now) (firstn 15 (frequency_table results)))
  /\ length (map (to_metric now) (firstn 15 (frequency_table results)))
     = Nat.min 15 (length (frequency_table results)).
Proof.
  split.
  - unfold graphite_tuples.
    rewrite graphite_tuples_from; [reflexivity|].
    apply Forall_firstn, frequency_table_present.
  - now rewrite length_map, length_firstn.
Qed.

(** X23: the entries that [graphite] leaves out of a longer table are the
    least common ones: none of them has a larger count than an entry that
    is sent. *)
Theorem graphite_sends_most_common (results : list key)
    (sent dropped : key * nat) :
  In sent (firstn 15 (frequency_table results)) ->
  In dropped (skipn 15 (frequency_table results)) ->
  snd dropped <= snd sent.
Proof.
  intros Hsent Hdropped.
  pose proof (frequency_table_order results) as Hsorted.
  rewrite <- (firstn_skipn 15 (frequency_table results)) in Hsorted.
  pose proof (StronglySorted_app_inv _ _ _ _ _ Hsorted Hsent Hdropped) as H.
  unfold precedes in H. lia.
Qed.

Lemma list_ascii_of_str_map (f : ascii -> ascii) (s : string) :
  list_ascii_of_string (str_map f s) = map f (list_ascii_of_string s).
Proof.
  induction s as [|c s IH]; cbn; [reflexivity | now rewrite IH].
Qed.

Lemma metric_name_chars (version : string) :
  metric_name version = str_map metric_char version.
Proof.
  unfold metric_name, replace_char, str_lower.
  induction version as [|c version IH]; cbn [str_map]; [reflexivity|].
  now rewrite IH.
Qed.

Lemma metric_char_slash (c : ascii) :
  Ascii.eqb "/" (metric_char c) = false.
Proof. destruct c as [[] [] [] [] [] [] [] []]; reflexivity. Qed.

Lemma metric_char_dot (c : ascii) :
  Ascii.eqb "." (metric_char c) = Ascii.eqb "/" c.
Proof. destruct c as [[] [] [] [] [] [] [] []]; reflexivity. Qed.

(** X24: the metric name of a version holds no slash, and holds as many
    dots as the version holds slashes: the dots of the version number do
    not split the metric path. *)
Theorem metric_name_path (version : string) :
  count_char "/" (metric_name version) = 0
  /\ count_char "." (metric_name version) = count_char "/" version.
Proof.
  rewrite metric_name_chars. unfold count_char.
  rewrite list_ascii_of_str_map.
  induction (list_ascii_of_string version) as [|c l [IH1 IH2]];
    cbn [map filter]; [now split|].
  rewrite metric_char_slash, metric_char_dot.
  split; [exact IH1|].
  destruct (Ascii.eqb "/" c); cbn [length]; now rewrite IH2.
Qed.

End Graphite.

Section Framing.

Local Close Scope string_scope.
Local Open Scope N_scope.

Lemma to_N_byte_of_N (n : N) : Byte.to_N (byte_of_N n) = n mod 256.
Proof.
  unfold byte_of_N.
  destruct (Byte.of_N (n mod 256)) as [b|] eqn:E.
  - now apply Byte.to_of_N in E.
  - apply Byte.of_N_None_iff in E.
    pose proof (N.mod_upper_bound n 256). lia.
Qed.

Lemma struct_pack_L_inv (n : N) (bytes : list byte) :
  struct_pack_L n = Return bytes ->
  length bytes = 4%nat /\ unpack_big_endian bytes = n /\ n < 2 ^ 32.
Proof.
  unfold struct_pack_L.
  destruct (n <? 2 ^ 32) eqn:E; [|discriminate].
  apply N.ltb_lt in E. intros [= <-].
  split; [reflexivity|]. split; [|exact E].
  unfold unpack_big_endian. cbn [fold_left].
  rewrite !to_N_byte_of_N.
  change (2 ^ 24) with 16777216. change (2 ^ 16) with 65536.
  change (2 ^ 8) with 256. change (2 ^ 32) with 4294967296 in E.
  zify. Z.to_euclidean_division_equations. lia.
Qed.

(** X25: the message starts with four bytes that hold, most significant
    byte first, the length of the package that follows them, so that the
    receiver can tell where the package ends; the package is the pickle of
    the tuples. *)
Theorem graphite_message_framed (pickle_dumps : list metric -> list byte)
    (now : Z) (versions : table) (message : list byte) :
  graphite_message pickle_dumps now versions = Return message ->
  exists tuples size,
    graphite_tuples now versions = Return tuples
    /\ message = (size ++ pickle_dumps tuples)%list
    /\ length size = 4%nat
    /\ unpack_big_endian size = N.of_nat (length (pickle_dumps tuples)).
Proof.
  unfold graphite_message.
  destruct (graphite_tuples now versions) as [tuples|]; cbn [bind];
    [|discriminate].
  destruct (struct_pack_L (N.of_nat (length (pickle_dumps tuples))))
    as [size|] eqn:E; cbn [bind]; [|discriminate].
  intros [= <-]. exists tuples, size.
  apply struct_pack_L_inv in E. tauto.
Qed.

End Framing.

(** C10 as the spec words it fails in debug mode: the body holds
    [server.name] and a blank [server.version], the [IndexError] is caught,
    and the print of the [except] clause, which no [try] encloses, raises on
    a closed standard output: the fetcher raises instead of returning
    [None]. *)
Lemma blank_version_debug_counterexample :
  fetch world_blank_version
        (version_url repr_stub (PStr "matrix.tum.de:8448")) None
  = Return (version_body (PStr "Synapse") (PStr "  "))
  /\ all_space "  " = true
  /\ version_for_homeserver repr_stub exn_stub world_blank_version
       console_broken "matrix.tum.de" (PStr "matrix.tum.de:8448") None
       FALLBACK true
     = Raise (OtherException "BrokenPipeError")
  /\ version_for_homeserver repr_stub exn_stub world_blank_version
       console_broken "matrix.tum.de" (PStr "matrix.tum.de:8448") None
       FALLBACK true
     <> Return None.
Proof. repeat split. discriminate. Qed.

(** ** The further theorems at work on examples *)

Lemma malformed_m_server_falls_through_witness :
  homeserver_for_domain repr_stub world_numeric_m_server "matrix.org"
  = Return {| homeserver := PStr "matrix.org:8448";
              headers := Some [("Host", "matrix.org")]; method := SRV |}.
Proof.
  exact (proj1 (malformed_m_server_falls_through repr_stub
                  world_numeric_m_server "matrix.org"
                  [("m.server", PInt 8448)] (PInt 8448)
                  eq_refl eq_refl eq_refl)).
Defined.

Lemma container_m_server_accepted_witness :
  exists has_colon,
    contains ":" (PList [PStr "matrix.org"]) = Return has_colon
    /\ homeserver_for_domain repr_stub world_list_m_server "matrix.org"
       = Return {| homeserver :=
                     if has_colon then PList [PStr "matrix.org"]
                     else PStr (repr_stub (PList [PStr "matrix.org"])
                                ++ ":8448");
                   headers := None; method := WELL_KNOWN |}.
Proof.
  apply (container_m_server_accepted repr_stub world_list_m_server
           "matrix.org" [("m.server", PList [PStr "matrix.org"])]
           (PList [PStr "matrix.org"])); [reflexivity | reflexivity |].
  left. now exists [PStr "matrix.org"].
Defined.

Lemma empty_srv_answer_falls_back_witness :
  homeserver_for_domain repr_stub world_empty_srv "matrix.org"
  = Return (fallback_tier "matrix.org").
Proof.
  apply (empty_srv_answer_falls_back repr_stub world_empty_srv "matrix.org");
    [|reflexivity].
  exists ClientError. split; reflexivity.
Defined.

Lemma authority_has_colon_witness : str_in ":" "matrix.org:8448" = true.
Proof.
  exact (authority_has_colon repr_stub world_srv "matrix.org"
           {| homeserver := PStr "matrix.org:8448";
              headers := Some [("Host", "matrix.org")]; method := SRV |}
           "matrix.org:8448" eq_refl eq_refl).
Defined.

Lemma method_reports_tier_witness :
  let r := fallback_tier "matrix.tum.de" in
  (method r = WELL_KNOWN
   /\ well_known_tier repr_stub world_fallback "matrix.tum.de" = Return r)
  \/ (method r = SRV
      /\ fails (well_known_tier repr_stub world_fallback "matrix.tum.de")
      /\ srv_tier world_fallback "matrix.tum.de" = Return r)
  \/ (method r = FALLBACK
      /\ fails (well_known_tier repr_stub world_fallback "matrix.tum.de")
      /\ fails (srv_tier world_fallback "matrix.tum.de")
      /\ r = fallback_tier "matrix.tum.de").
Proof.
  exact (method_reports_tier repr_stub world_fallback "matrix.tum.de"
           (fallback_tier "matrix.tum.de") eq_refl).
Defined.

Lemma uncaught_exception_propagates_witness :
  homeserver_for_domain repr_stub world_cancelled "matrix.org"
  = Raise CancelledError
  /\ homeserver_for_domain repr_stub world_cancelled_srv "matrix.org"
     = Raise CancelledError.
Proof.
  split.
  - exact (proj1 (uncaught_exception_propagates repr_stub world_cancelled
                    "matrix.org" CancelledError eq_refl) eq_refl).
  - apply (proj2 (uncaught_exception_propagates repr_stub
                    world_cancelled_srv "matrix.org" CancelledError
                    eq_refl)); [|reflexivity].
    exists ClientError. split; reflexivity.
Defined.

Lemma version_string_sound_witness :
  exists body server name version token others,
    fetch world_fallback
          (version_url repr_stub (PStr "matrix.tum.de:8448")) None
    = Return body
    /\ getitem body "server" = Return server
    /\ getitem server "name" = Return name
    /\ getitem server "version" = Return (PStr version)
    /\ str_split version = token :: others
    /\ "Synapse/1.6.1" = py_str repr_stub name ++ "/" ++ token.
Proof.
  exact (version_string_sound repr_stub exn_stub world_fallback console_ok
           "matrix.tum.de" (PStr "matrix.tum.de:8448") None FALLBACK true
           "Synapse/1.6.1" eq_refl).
Defined.

Lemma fetcher_never_raises_witness :
  exists r,
    version_for_homeserver repr_stub exn_stub world_malformed_body
      console_ok "matrix.tum.de" (PStr "matrix.tum.de:8448") None FALLBACK
      true
    = Return r.
Proof.
  apply (fetcher_never_raises repr_stub exn_stub world_malformed_body
           console_ok "matrix.tum.de" (PStr "matrix.tum.de:8448") None
           FALLBACK true).
  - exact I.
  - right. intros message. reflexivity.
Defined.

Lemma version_token_shape_witness :
  exists name token,
    "Synapse/1.6.1" = name ++ "/" ++ token
    /\ token <> EmptyString
    /\ existsb isspace (list_ascii_of_string token) = false.
Proof.
  exact (version_token_shape repr_stub exn_stub world_fallback console_ok
           "matrix.tum.de" (PStr "matrix.tum.de:8448") None FALLBACK true
           "Synapse/1.6.1" eq_refl).
Defined.

Lemma malformed_body_absent_witness :
  version_for_homeserver repr_stub exn_stub world_malformed_body
    console_broken "matrix.tum.de" (PStr "matrix.tum.de:8448") None FALLBACK
    false
  = Return None.
Proof.
  apply (malformed_body_absent repr_stub exn_stub world_malformed_body
           console_broken "matrix.tum.de" (PStr "matrix.tum.de:8448") None
           FALLBACK false (PDict [])); [reflexivity| |].
  - intros server name version token others Hserver. discriminate Hserver.
  - left. reflexivity.
Defined.

Lemma world_fallback_catchable :
  (forall url headers, catchable (http_get world_fallback url headers))
  /\ (forall name qtype, catchable (dns_query world_fallback name qtype)).
Proof.
  split.
  - intros url headers. cbn.
    destruct (str_in "/.well-known/" url); [reflexivity | exact I].
  - intros name qtype. reflexivity.
Defined.

Lemma prober_never_raises_witness :
  exists r,
    version_for_domain repr_stub exn_stub world_fallback console_ok
      "matrix.tum.de" true
    = Return r.
Proof.
  apply (prober_never_raises repr_stub exn_stub world_fallback console_ok
           "matrix.tum.de" true
           (proj1 world_fallback_catchable)
           (proj2 world_fallback_catchable)).
  right. intros message. reflexivity.
Defined.

Lemma srv_probe_witness :
  version_for_domain repr_stub exn_stub world_srv console_ok "matrix.org"
    true
  = Return (Some "Synapse/1.6.1").
Proof.
  apply (srv_probe repr_stub exn_stub world_srv console_ok "matrix.org" true
           {| host := "matrix.org"; port := 8448;
              priority := 10; weight := 5 |} []
           synapse_body
           (PDict [("name", PStr "Synapse");
                   ("version", PStr "1.6.1 (abcd,branch)")])
           (PStr "Synapse") "1.6.1 (abcd,branch)" "1.6.1");
    try reflexivity.
  - exists ClientError. split; reflexivity.
  - exists "", " (abcd,branch)". repeat split.
    + discriminate.
    + right. exists " "%char, "(abcd,branch)". split; reflexivity.
  - right. intros message. reflexivity.
Defined.

Lemma frequency_table_entries_witness :
  2%nat = occurrences (Some "A") [Some "A"; None; Some "A"]
  /\ (1 <= 2)%nat.
Proof.
  apply (frequency_table_entries [Some "A"; None; Some "A"] (Some "A") 2).
  vm_compute. left. reflexivity.
Defined.

Lemma frequency_table_order_independent_witness :
  get (frequency_table [Some "A"; Some "B"]) (Some "A") 0
  = get (frequency_table [Some "B"; Some "A"]) (Some "A") 0.
Proof.
  exact (frequency_table_order_independent
           [Some "A"; Some "B"] [Some "B"; Some "A"]
           (perm_swap (Some "B") (Some "A") []) (Some "A")).
Defined.

Lemma frequency_table_all_failed_witness :
  frequency_table [None; None; None] = [].
Proof.
  apply frequency_table_all_failed. repeat constructor.
Defined.

Lemma main_versions_returns_witness :
  exists versions,
    main_versions repr_stub exn_stub world_fallback console_broken
      ["matrix.tum.de"; "synod.im"] false
    = Return versions
    /\ ~ In None (map fst versions)
    /\ (total versions <= 2)%nat.
Proof.
  exact (main_versions_returns repr_stub exn_stub world_fallback
           console_broken ["matrix.tum.de"; "synod.im"] false
           (proj1 world_fallback_catchable)
           (proj2 world_fallback_catchable)
           (or_introl eq_refl)).
Defined.

Lemma file_destinations_lines_witness :
  file_destinations (text_of_lines ["matrix.org"; ""] ++ "synod.im")
  = ["matrix.org"; ""; "synod.im"].
Proof.
  apply (file_destinations_lines ["matrix.org"; ""] "synod.im");
    [repeat constructor | reflexivity].
Defined.

Lemma graphite_sends_most_common_witness :
  (snd (Some "P", 1%nat) <= snd (Some "A", 2%nat))%nat.
Proof.
  apply (graphite_sends_most_common seventeen_results
           (Some "A", 2%nat) (Some "P", 1%nat)).
  - vm_compute. left. reflexivity.
  - vm_compute. left. reflexivity.
Defined.

Lemma graphite_message_framed_witness :
  exists tuples size,
    graphite_tuples 0 [(Some "Synapse/1.6.1", 3%nat)] = Return tuples
    /\ [x00; x00; x00; x01; x80] = (size ++ pickle_stub tuples)%list
    /\ length size = 4%nat
    /\ unpack_big_endian size = N.of_nat (length (pickle_stub tuples)).
Proof.
  exact (graphite_message_framed pickle_stub 0
           [(Some "Synapse/1.6.1", 3%nat)] [x00; x00; x00; x01; x80]
           eq_refl).
Defined.

Lemma failed_print_propagates_witness :
  version_for_homeserver repr_stub exn_stub world_malformed_body
    console_broken "matrix.tum.de" (PStr "matrix.tum.de:8448") None FALLBACK
    true
  = Raise (OtherException "BrokenPipeError").
Proof.
  exact (failed_print_propagates repr_stub exn_stub world_malformed_body
           console_broken "matrix.tum.de" (PStr "matrix.tum.de:8448") None
           FALLBACK KeyError (OtherException "BrokenPipeError")
           eq_refl eq_refl eq_refl).
Defined.

Lemma failed_announcement_loses_version_witness :
  version_for_homeserver repr_stub exn_stub world_fallback console_broken
    "matrix.tum.de" (PStr "matrix.tum.de:8448") None FALLBACK true
  = Raise (OtherException "BrokenPipeError").
Proof.
  apply (failed_announcement_loses_version repr_stub exn_stub world_fallback
           console_broken "matrix.tum.de" (PStr "matrix.tum.de:8448") None
           FALLBACK synapse_body
           (PDict [("name", PStr "Synapse");
                   ("version", PStr "1.6.1 (abcd,branch)")])
           (PStr "Synapse") "1.6.1 (abcd,branch)" "1.6.1"
           (OtherException "BrokenPipeError"));
    try reflexivity.
  exists "", " (abcd,branch)". repeat split.
  - discriminate.
  - right. exists " "%char, "(abcd,branch)". split; reflexivity.
Defined.
